(** * sourcebit.js: the Sourcebit plugin chain of the Contentful starter

    A shallow embedding of the three plugins configured in [sourcebit.js]:
    the [transform] middleware that saves the [ThemeStyle] entry for
    tailwind, and the [commonProps] and [pages] options handed to
    [sourcebit-target-next].

    JavaScript objects have identity, so entries live in a heap of cells and
    values hold references into it.  Objects and arrays that a function
    returns, or that are reachable from what it returns, are allocated in
    the heap; locals that never escape ([pageObjects], [restProps], the
    array literal of page models) are kept as Rocq lists and maps.
    Exceptions are an explicit [Throw] outcome, and the file system that
    [transform] writes to is part of the threaded state. *)

From Stdlib Require Import ZArith Ascii String.
From stdpp Require Import base gmap list strings pretty.

Local Open Scope string_scope.
Local Open Scope list_scope.

(** ** JavaScript values and the heap *)

Definition loc := nat.

Inductive value :=
  | VUndefined
  | VNull
  | VBool (b : bool)
  | VNum (n : Z)
  | VStr (s : string)
  | VRef (l : loc).

Inductive cell :=
  | Obj (props : gmap string value)
  | Arr (elems : list value).

Global Instance value_eq_dec : EqDecision value.
Proof. solve_decision. Defined.

Global Instance value_inhabited : Inhabited value := populate VUndefined.

(** [===] on the values modelled here: primitives by content, objects by
    reference. *)
Definition strict_eq (a b : value) : bool := bool_decide (a = b).

Definition truthy (v : value) : bool :=
  match v with
  | VUndefined | VNull => false
  | VBool b => b
  | VNum n => negb (n =? 0)%Z
  | VStr s => negb (String.eqb s "")
  | VRef _ => true
  end.

(** ** The file system seen through Node's [fs] and [path]

    Paths are lists of segments.  The model keeps what the calls of
    [transform] can observe: which directories and files exist, what the
    files hold, and where the process is refused. *)

Definition path := list string.

Record FS := mkFS {
  dirs : gset path;            (* existing directories; the root [] always exists *)
  files : gmap path string;    (* regular files and their content *)
  denied : gset path           (* paths the process may not create or write *)
}.

Definition is_dir (f : FS) (p : path) : bool :=
  bool_decide (p = []) || bool_decide (p ∈ dirs f).

Definition is_file (f : FS) (p : path) : bool :=
  bool_decide (is_Some (files f !! p)).

(** The non-empty prefixes of a path: the directories [mkdirSync] creates
    with [recursive: true]. *)
Definition ancestors (p : path) : list path :=
  (λ n, take n p) <$> seq 1 (length p).

Definition parent (p : path) : path := removelast p.

(** ** Exceptions, outcomes and the state monad *)

Inductive error :=
  | TypeError (msg : string)
  | FsError (code : string) (p : path)
  | JsonError (msg : string).

Inductive result (A : Type) :=
  | Ok (a : A)
  | Throw (e : error).
Arguments Ok {A} a.
Arguments Throw {A} e.

Record world := World {
  heap : list cell;
  fs : FS
}.

Definition M (A : Type) : Type := world → result A * world.

Definition ret {A} (a : A) : M A := λ w, (Ok a, w).

Definition bind {A B} (m : M A) (k : A → M B) : M B :=
  λ w, match m w with
       | (Ok a, w') => k a w'
       | (Throw e, w') => (Throw e, w')
       end.

Notation "x <- m ;; k" := (bind m (λ x, k))
  (at level 100, m at next level, right associativity).

Definition CannotRead : error := TypeError "Cannot read properties of undefined".
Definition NotAFunction : error := TypeError "is not a function".
Definition CannotDestructure : error := TypeError "Cannot destructure".

(** ** Objects, arrays and property access *)

(** The own enumerable properties of an array (or of a string): its
    elements under their decimal indices. *)
Definition index_props (vs : list value) : gmap string value :=
  list_to_map (imap (λ i v, (pretty i, v)) vs).

Definition chars (s : string) : list value :=
  (λ c, VStr (String c EmptyString)) <$> list_ascii_of_string s.

(** What [{...v}] copies from [v]. *)
Definition own_props (h : list cell) (v : value) : gmap string value :=
  match v with
  | VRef l =>
      match h !! l with
      | Some (Obj o) => o
      | Some (Arr vs) => index_props vs
      | None => ∅
      end
  | VStr s => index_props (chars s)
  | _ => ∅
  end.

Definition length_prop (h : list cell) (v : value) : option value :=
  match v with
  | VRef l =>
      match h !! l with
      | Some (Arr vs) => Some (VNum (Z.of_nat (length vs)))
      | _ => None
      end
  | VStr s => Some (VNum (Z.of_nat (String.length s)))
  | _ => None
  end.

(** [v.k] for a data property [k].  Reading a property of [undefined] or
    [null] throws; a property that is not there reads as [undefined].
    Methods inherited from the prototypes are not data and are modelled by
    the functions below. *)
Definition get (v : value) (k : string) : M value :=
  λ w, match v with
       | VUndefined | VNull => (Throw CannotRead, w)
       | _ =>
           match length_prop (heap w) v with
           | Some n =>
               if String.eqb k "length" then (Ok n, w)
               else (Ok (default VUndefined (own_props (heap w) v !! k)), w)
           | None => (Ok (default VUndefined (own_props (heap w) v !! k)), w)
           end
       end.

Definition alloc (c : cell) : M value :=
  λ w, (Ok (VRef (length (heap w))), World (heap w ++ [c]) (fs w)).

Definition new_object (o : gmap string value) : M value := alloc (Obj o).
Definition new_array (vs : list value) : M value := alloc (Arr vs).

(** The elements of the array a method of [Array.prototype] is called on. *)
Definition array_elements (arr : value) : M (list value) :=
  λ w, match arr with
       | VUndefined | VNull => (Throw CannotRead, w)
       | VRef l =>
           match heap w !! l with
           | Some (Arr vs) => (Ok vs, w)
           | _ => (Throw NotAFunction, w)
           end
       | _ => (Throw NotAFunction, w)
       end.

Fixpoint find_loop (cb : value → M value) (vs : list value) : M value :=
  match vs with
  | [] => ret VUndefined
  | x :: vs' =>
      r <- cb x ;;
      if truthy r then ret x else find_loop cb vs'
  end.

Fixpoint filter_loop (cb : value → M value) (vs : list value) : M (list value) :=
  match vs with
  | [] => ret []
  | x :: vs' =>
      r <- cb x ;;
      rest <- filter_loop cb vs' ;;
      ret (if truthy r then x :: rest else rest)
  end.

Fixpoint map_loop (cb : value → M value) (vs : list value) : M (list value) :=
  match vs with
  | [] => ret []
  | x :: vs' =>
      y <- cb x ;;
      rest <- map_loop cb vs' ;;
      ret (y :: rest)
  end.

(** [arr.find(cb)] *)
Definition Array_find (cb : value → M value) (arr : value) : M value :=
  vs <- array_elements arr ;; find_loop cb vs.

(** [arr.filter(cb)], its result kept as a local list. *)
Definition Array_filter (cb : value → M value) (arr : value) : M (list value) :=
  vs <- array_elements arr ;; filter_loop cb vs.

(** [list.includes(v)] for a list of string literals. *)
Definition includes (lits : list string) (v : value) : bool :=
  match v with
  | VStr s => bool_decide (s ∈ lits)
  | _ => false
  end.

(** ** [fs] and [path] *)

Definition path_join (d : path) (rel : path) : path := d ++ rel.

Definition existsSync (p : path) : M bool :=
  λ w, (Ok (is_dir (fs w) p || is_file (fs w) p), w).

(** [fs.mkdirSync(p, { recursive: true })] *)
Definition mkdirSync (p : path) : M unit :=
  λ w, let f := fs w in
       if existsb (is_file f) (ancestors p) then (Throw (FsError "ENOTDIR" p), w)
       else if existsb (λ q, bool_decide (q ∈ denied f) && negb (is_dir f q)) (ancestors p)
       then (Throw (FsError "EACCES" p), w)
       else (Ok tt, World (heap w) (mkFS (dirs f ∪ list_to_set (ancestors p)) (files f) (denied f))).

(** [fs.writeFileSync(p, content)] *)
Definition writeFileSync (p : path) (content : string) : M unit :=
  λ w, let f := fs w in
       if negb (is_dir f (parent p)) then (Throw (FsError "ENOENT" p), w)
       else if is_dir f p then (Throw (FsError "EISDIR" p), w)
       else if bool_decide (p ∈ denied f) then (Throw (FsError "EACCES" p), w)
       else (Ok tt, World (heap w) (mkFS (dirs f) (<[p := content]> (files f)) (denied f))).

(** ** [src/utils/page-utils] *)

(** JavaScript's [s.split(sep)] for a one-character separator. *)
Fixpoint split (sep : ascii) (s : string) : list string :=
  match s with
  | EmptyString => [EmptyString]
  | String c s' =>
      if Ascii.eqb c sep then EmptyString :: split sep s'
      else match split sep s' with
           | seg :: segs => String c seg :: segs
           | [] => [String c EmptyString]
           end
  end.

Definition lower (c : ascii) : ascii :=
  let n := nat_of_ascii c in
  if ((65 <=? n) && (n <=? 90))%nat then ascii_of_nat (n + 32) else c.

Definition alphanumeric (c : ascii) : bool :=
  let n := nat_of_ascii c in
  (((48 <=? n) && (n <=? 57)) || ((97 <=? n) && (n <=? 122)) || ((65 <=? n) && (n <=? 90)))%nat.

Fixpoint map_chars (f : ascii → ascii) (s : string) : string :=
  match s with
  | EmptyString => EmptyString
  | String c s' => String (f c) (map_chars f s')
  end.

Definition sanitize_char (c : ascii) : ascii :=
  if alphanumeric c then lower c else "-"%char.

(** Modelled from the spec: the sanitized class token of a segment, which
    [./src/utils/page-utils] (not among the sources) computes: the segment in
    lower case, every character that is not a letter or a digit replaced
    with a dash (specification 4.1). *)
Definition sanitize (seg : string) : string := map_chars sanitize_char seg.

(** The characters of a class token: lower-case letters, digits, the dash. *)
Definition token_char (c : ascii) : bool :=
  let n := nat_of_ascii c in
  (((48 <=? n) && (n <=? 57)) || ((97 <=? n) && (n <=? 122)) || (n =? 45))%nat.

Definition nonempty (s : string) : bool := negb (String.eqb s "").

(** Modelled from the spec: [cssClassesFromUrlPath] is imported from
    [./src/utils/page-utils], which is not among the sources.  The
    specification (4.1, [pageCssClasses]) has it split [urlPath] on [/],
    discard the empty segments and emit a sanitized class token for each
    remaining one; when no segment remains it emits the single sentinel
    token of the root page, [home] (section 8).  [pageCssClasses] is the
    list of tokens, [cssClassesFromUrlPath] the array it returns. *)
Definition pageCssClasses (urlPath : string) : list string :=
  match List.filter nonempty (split "/" urlPath) with
  | [] => ["home"]
  | segs => sanitize <$> segs
  end.

(** Modelled from the spec: [cssClassesFromUrlPath], absent with the rest of
    [./src/utils/page-utils]; it returns the tokens of [pageCssClasses] as a
    new array. *)
Definition cssClassesFromUrlPath (urlPath : string) : M value :=
  new_array (VStr <$> pageCssClasses urlPath).

(** ** [sourcebit.js] *)

Definition pageModels : list string := ["PageLayout"; "PostFeedLayout"; "PostLayout"].

(** [page.__metadata.modelName] *)
Definition modelName (page : value) : M value :=
  md <- get page "__metadata" ;; get md "modelName".

(** The rest pattern [{ k, ...restProps } = page]: the own properties of
    [page] other than [k].  Destructuring [undefined] or [null] throws. *)
Definition rest_props (k : string) (page : value) : M (gmap string value) :=
  λ w, match page with
       | VUndefined | VNull => (Throw CannotDestructure, w)
       | _ => (Ok (delete k (own_props (heap w) page)), w)
       end.

(** The properties a spread [{...v}] contributes. *)
Definition spread (v : value) : M (gmap string value) :=
  λ w, (Ok (own_props (heap w) v), w).

Section Sourcebit.

(** The directory of [sourcebit.js]. *)
Variable __dirname : path.

(** [getPageUrl] is imported from [./src/utils/page-utils], which is not
    among the sources, and the specification leaves its derivation rule
    to the CMS schema; it is a parameter that reads the heap and yields
    the page's [urlPath], a string. *)
Variable getPageUrl : list cell → value → string.

(** [JSON.stringify(v, null, space)], which throws on cyclic input. *)
Variable JSON_stringify : list cell → value → nat → result string.

Definition stringify (v : value) (space : nat) : M string :=
  λ w, (JSON_stringify (heap w) v space, w).

Definition pageUrl (page : value) : M string :=
  λ w, (Ok (getPageUrl (heap w) page), w).

(** *** The ThemeStyle middleware (lines 47-63) *)

Definition stylePath : path :=
  path_join (path_join __dirname ["content"; "data"]) ["style.json"].

(** The body of the [if] at lines 52-57. *)
Definition saveThemeStyle (object : value) : M value :=
  let dirname := path_join __dirname ["content"; "data"] in
  found <- existsSync dirname ;;
  _ <- (if negb found then mkdirSync dirname else ret tt) ;;
  json <- stringify object 4 ;;
  _ <- writeFileSync (path_join dirname ["style.json"]) json ;;
  ret (VBool true).

(** The callback of [data.objects.find] at lines 50-59. *)
Definition themeStyleCallback (object : value) : M value :=
  mn <- modelName object ;;
  if strict_eq mn (VStr "ThemeStyle") then saveThemeStyle object
  else ret VUndefined.

(** [transform: ({ data }) => ...] *)
Definition transform (arg : value) : M value :=
  data <- get arg "data" ;;
  objects <- get data "objects" ;;
  _ <- Array_find themeStyleCallback objects ;;
  ret data.

(** *** The options of [sourcebit-target-next] (lines 76-103) *)

Definition isConfig (page : value) : M value :=
  mn <- modelName page ;; ret (VBool (strict_eq mn (VStr "Config"))).

(** [commonProps: (objects) => ...] *)
Definition commonProps (objects : value) : M value :=
  site <- Array_find isConfig objects ;;
  new_object {[ "site" := site ]}.

Definition isPage (page : value) : M value :=
  mn <- modelName page ;; ret (VBool (includes pageModels mn)).

(** The callback of [pageObjects.map] at lines 87-98.  The reads follow
    the order of the source; a cell is allocated once its content is
    known, so the innermost first. *)
Definition pageProps (page : value) : M value :=
  __metadata <- get page "__metadata" ;;
  restProps <- rest_props "__metadata" page ;;
  urlPath <- pageUrl page ;;
  md <- spread __metadata ;;
  classes <- cssClassesFromUrlPath urlPath ;;
  metadata <- new_object (<["pageCssClasses" := classes]> (<["urlPath" := VStr urlPath]> md)) ;;
  new_object (restProps ∪ {[ "__metadata" := metadata ]}).

(** [pages: (objects) => ...] *)
Definition pages (objects : value) : M value :=
  pageObjects <- Array_filter isPage objects ;;
  pages <- map_loop pageProps pageObjects ;;
  new_array pages.

(** What [sourcebit-target-next] generates from the two options, called in
    the order [sourcebit.js] gives them: the common props and the pages
    (lines 70-74). *)
Definition targetNext (objects : value) : M (value * value) :=
  props <- commonProps objects ;;
  pgs <- pages objects ;;
  ret (props, pgs).

End Sourcebit.

(** ** Content entries *)

(** The record a value refers to, when it refers to a plain object. *)
Definition record_of (h : list cell) (v : value) : option (gmap string value) :=
  match v with
  | VRef l =>
      match h !! l with
      | Some (Obj o) => Some o
      | _ => None
      end
  | _ => None
  end.

(** The metadata record of a content entry: the object under its
    [__metadata] field. *)
Definition metadata_of (h : list cell) (page : value) : option (gmap string value) :=
  o ← record_of h page; md ← o !! "__metadata"; record_of h md.

(** The model tag of an entry, [undefined] when the metadata carries none. *)
Definition tag_of (h : list cell) (page : value) : value :=
  default VUndefined (md ← metadata_of h page; md !! "modelName").

(** A content entry of the data model: an object with a metadata record. *)
Definition ContentEntry (h : list cell) (page : value) : Prop :=
  is_Some (metadata_of h page).

Global Instance ContentEntry_dec h page : Decision (ContentEntry h page).
Proof. unfold ContentEntry. apply _. Defined.

(** An entry whose [__metadata] field is missing (or [null]). *)
Definition lacks_metadata (h : list cell) (page : value) : Prop :=
  ∃ o, record_of h page = Some o ∧
       (o !! "__metadata" = None ∨ o !! "__metadata" = Some VUndefined
        ∨ o !! "__metadata" = Some VNull).

Definition has_tag (tag : string) (h : list cell) (page : value) : bool :=
  strict_eq (tag_of h page) (VStr tag).

Definition is_page (h : list cell) (page : value) : bool :=
  includes pageModels (tag_of h page).

(** ** What [transform] is given and what it leaves on disk *)

(** The argument of [transform]: an object whose [data] is an object whose
    [objects] is the array of entries. *)
Definition data_objects (h : list cell) (arg data : value) (lo : loc)
    (objs : list value) : Prop :=
  ∃ a d,
    record_of h arg = Some a ∧ a !! "data" = Some data ∧
    record_of h data = Some d ∧ d !! "objects" = Some (VRef lo) ∧
    h !! lo = Some (Arr objs).

(** The file system lets [saveThemeStyle] through: the directory
    [content/data] is there or can be created, and [style.json] in it can
    be written. *)
Definition can_save (__dirname : path) (f : FS) : bool :=
  let dirname := path_join __dirname ["content"; "data"] in
  let file := path_join dirname ["style.json"] in
  (if is_dir f dirname || is_file f dirname then is_dir f dirname
   else negb (existsb (is_file f) (ancestors dirname))
        && negb (existsb (λ q, bool_decide (q ∈ denied f) && negb (is_dir f q))
                   (ancestors dirname)))
  && negb (is_dir f file) && negb (bool_decide (file ∈ denied f)).

(** The file system after [style.json] has been saved with content [json]. *)
Definition saved (__dirname : path) (json : string) (f : FS) : FS :=
  let dirname := path_join __dirname ["content"; "data"] in
  mkFS (if is_dir f dirname || is_file f dirname then dirs f
        else dirs f ∪ list_to_set (ancestors dirname))
       (<[stylePath __dirname := json]> (files f))
       (denied f).

(** A computation that neither reads nor writes the file system: run with
    any two file systems, it returns the same outcome and the same heap and
    leaves each file system as it was. *)
Definition fs_blind {A} (m : M A) : Prop :=
  ∀ h f f', ∃ r h', m (World h f) = (r, World h' f) ∧ m (World h f') = (r, World h' f').

(** ** What [pages] builds for an entry *)

(** [page_built gp h h' src out]: in the heap [h'], [out] is the page record
    built from the entry [src] of the heap [h]: a fresh object with the
    fields of [src], whose [__metadata] is a fresh object with the fields of
    the metadata of [src] together with [urlPath] and [pageCssClasses], the
    latter a fresh array of class tokens.  The URL is the one [gp] computed
    in the heap of the call, an extension [h ++ k] of [h]. *)
Definition page_built (gp : list cell → value → string)
    (h h' : list cell) (src out : value) : Prop :=
  ∃ o md lp lm lc k,
    record_of h src = Some o ∧ metadata_of h src = Some md ∧ out = VRef lp ∧
    h' !! lp = Some (Obj (delete "__metadata" o ∪ {[ "__metadata" := VRef lm ]})) ∧
    h' !! lm = Some (Obj (<["pageCssClasses" := VRef lc]>
                            (<["urlPath" := VStr (gp (h ++ k) src)]> md))) ∧
    h' !! lc = Some (Arr (VStr <$> pageCssClasses (gp (h ++ k) src))).

(** [page_of h h' src out]: the record [out] of heap [h'] stands for the
    entry [src] of heap [h]: same model tag, same fields outside the
    metadata record. *)
Definition page_of (h h' : list cell) (src out : value) : Prop :=
  ∃ o o',
    record_of h src = Some o ∧ record_of h' out = Some o' ∧
    (∀ k, k ≠ "__metadata" → o' !! k = o !! k) ∧
    tag_of h' out = tag_of h src.

(** [enriched h h' src out]: the record [out] of heap [h'] has every field
    of the entry [src] of heap [h] outside the metadata record, and its
    metadata record has every field of the metadata of [src] together with a
    [urlPath] and the [pageCssClasses] derived from that path. *)
Definition enriched (h h' : list cell) (src out : value) : Prop :=
  ∃ o md o' md',
    record_of h src = Some o ∧ metadata_of h src = Some md ∧
    record_of h' out = Some o' ∧ metadata_of h' out = Some md' ∧
    (∀ k, k ≠ "__metadata" → o' !! k = o !! k) ∧
    (∀ k, k ≠ "urlPath" → k ≠ "pageCssClasses" → md' !! k = md !! k) ∧
    ∃ u lc, md' !! "urlPath" = Some (VStr u) ∧
            md' !! "pageCssClasses" = Some (VRef lc) ∧
            h' !! lc = Some (Arr (VStr <$> pageCssClasses u)).

(** ** The JSON image of a value *)

(** The tree a value denotes in a heap, cut at depth [n]: what a
    serialization of the value can observe. *)
#[warnings="-register-all"] Inductive jval :=
  | JUndefined
  | JNull
  | JBool (b : bool)
  | JNum (n : Z)
  | JStr (s : string)
  | JArr (items : list jval)
  | JObj (fields : gmap string jval)
  | JCut.

Fixpoint reify (n : nat) (h : list cell) (v : value) {struct n} : jval :=
  match v with
  | VUndefined => JUndefined
  | VNull => JNull
  | VBool b => JBool b
  | VNum z => JNum z
  | VStr s => JStr s
  | VRef l =>
      match n with
      | 0 => JCut
      | S n' =>
          match h !! l with
          | Some (Obj o) => JObj (reify n' h <$> o)
          | Some (Arr vs) => JArr (reify n' h <$> vs)
          | None => JUndefined
          end
      end
  end.

(** The value [a] in the heap [h1] and the value [b] in the heap [h2]
    denote the same tree at every depth: no serialization tells them
    apart. *)
Definition same_json (h1 h2 : list cell) (a b : value) : Prop :=
  ∀ n, reify n h1 a = reify n h2 b.

(** A value is valid below [n] when it is not a reference past the first
    [n] cells; a heap is closed when every value in it is valid in it, as
    in any heap JavaScript can build. *)
Definition valid (n : nat) (v : value) : bool :=
  match v with
  | VRef l => bool_decide (l < n)
  | _ => true
  end.

Definition cell_valid (n : nat) (c : cell) : bool :=
  match c with
  | Obj o => forallb (λ kv, valid n kv.2) (map_to_list o)
  | Arr vs => forallb (valid n) vs
  end.

Definition closed (h : list cell) : bool := forallb (cell_valid (length h)) h.

(** A URL strategy is stable when allocating further cells does not change
    the URL of an entry that is already there. *)
Definition stable_url (gp : list cell → value → string) : Prop :=
  ∀ h k page, ContentEntry h page → gp (h ++ k) page = gp h page.

(** ** Sample collaborators for the examples *)

(** A URL strategy for the examples: the entry's [slug] field, and the
    root path for an entry without one. *)
Definition slugUrl (h : list cell) (page : value) : string :=
  match own_props h page !! "slug" with
  | Some (VStr s) => s
  | _ => "/"
  end.

(** A compact serializer for the examples, without quotes or indentation;
    it gives up on deep (cyclic) values the way [JSON.stringify] throws on
    them. *)
Fixpoint print (n : nat) (h : list cell) (v : value) {struct n} : option string :=
  match v with
  | VUndefined | VNull => Some "null"
  | VBool b => Some (if b then "true" else "false")
  | VNum z => Some (pretty z)
  | VStr s => Some s
  | VRef l =>
      match n with
      | 0 => None
      | S n' =>
          match h !! l with
          | Some (Obj o) =>
              fields ← mapM (λ kv, s ← print n' h kv.2; Some (kv.1 +:+ ":" +:+ s))
                            (map_to_list o);
              Some ("{" +:+ String.concat "," fields +:+ "}")
          | Some (Arr vs) =>
              xs ← mapM (print n' h) vs;
              Some ("[" +:+ String.concat "," xs +:+ "]")
          | None => Some "null"
          end
      end
  end.

Definition compactJson (h : list cell) (v : value) (space : nat) : result string :=
  match print 16 h v with
  | Some s => Ok s
  | None => Throw (JsonError "Converting circular structure to JSON")
  end.

Definition emptyFS : FS := mkFS ∅ ∅ ∅.

(** The collection of the end-to-end example: a [Config] entry [c1] and a
    [PageLayout] entry [p1] with slug [/about], tags and ids in their
    metadata records; the array of entries is at location 4. *)
Definition exampleHeap : list cell :=
  [ Obj {[ "modelName" := VStr "Config"; "id" := VStr "c1" ]};
    Obj {[ "__metadata" := VRef 0 ]};
    Obj {[ "modelName" := VStr "PageLayout"; "id" := VStr "p1" ]};
    Obj {[ "__metadata" := VRef 2; "slug" := VStr "/about" ]};
    Arr [VRef 1; VRef 3] ].

Definition exampleWorld : world := World exampleHeap emptyFS.

(** A collection whose first entry has no metadata record, followed by a
    well-formed [PageLayout] entry; the array of entries is at location 3. *)
Definition brokenHeap : list cell :=
  [ Obj {[ "slug" := VStr "/broken" ]};
    Obj {[ "modelName" := VStr "PageLayout"; "id" := VStr "p1" ]};
    Obj {[ "__metadata" := VRef 1; "slug" := VStr "/about" ]};
    Arr [VRef 0; VRef 2] ].

Definition brokenWorld : world := World brokenHeap emptyFS.

(** The same two entries written flat, as the specification prints them:
    [modelName] and [id] beside the other fields, no metadata record; the
    array of entries is at location 2. *)
Definition flatHeap : list cell :=
  [ Obj {[ "modelName" := VStr "Config"; "id" := VStr "c1" ]};
    Obj {[ "modelName" := VStr "PageLayout"; "id" := VStr "p1"; "slug" := VStr "/about" ]};
    Arr [VRef 0; VRef 1] ].

Definition flatWorld : world := World flatHeap emptyFS.

(** The cells the two options allocate on the example collection: the
    common props, then the class array, the metadata and the record of the
    page, then the array of pages. *)
Definition exampleOutput : list cell :=
  [ Obj {[ "site" := VRef 1 ]};
    Arr [VStr "about"];
    Obj {[ "modelName" := VStr "PageLayout"; "id" := VStr "p1";
           "urlPath" := VStr "/about"; "pageCssClasses" := VRef 6 ]};
    Obj {[ "__metadata" := VRef 7; "slug" := VStr "/about" ]};
    Arr [VRef 8] ].

(** The argument of [transform] for a collection with a [Config] entry and
    two [ThemeStyle] entries, a blue one before a red one; the array of
    entries is at location 2. *)
Definition themeHeap : list cell :=
  [ Obj {[ "data" := VRef 1 ]};
    Obj {[ "objects" := VRef 2 ]};
    Arr [VRef 4; VRef 6; VRef 8];
    Obj {[ "modelName" := VStr "Config" ]};
    Obj {[ "__metadata" := VRef 3 ]};
    Obj {[ "modelName" := VStr "ThemeStyle" ]};
    Obj {[ "__metadata" := VRef 5; "primaryColor" := VStr "blue" ]};
    Obj {[ "modelName" := VStr "ThemeStyle" ]};
    Obj {[ "__metadata" := VRef 7; "primaryColor" := VStr "red" ]} ].

Definition themeWorld : world := World themeHeap emptyFS.

Definition siteDir : path := ["home"; "site"].

(** ** The plugin options computed from the environment (lines 5, 15-43, 78-80) *)

(** [process.env]: the variables that are set, each a string. *)
Definition getenv (env : gmap string string) (name : string) : value :=
  match env !! name with
  | Some s => VStr s
  | None => VUndefined
  end.

(** [a || b] *)
Definition or_else (a b : value) : value := if truthy a then a else b.

(** [const isDev = process.env.NODE_ENV === 'development'] *)
Definition isDev (env : gmap string string) : bool :=
  strict_eq (getenv env "NODE_ENV") (VStr "development").

Record ContentfulOptions := {
  accessToken : value;
  deliveryToken : value;
  previewToken : value;
  spaceId : value;
  environment : value;
  preview : value;
  watch : value;
  host : value
}.

(** The options of [sourcebit-source-contentful]. *)
Definition contentfulOptions (env : gmap string string) : ContentfulOptions :=
  {| accessToken := getenv env "CONTENTFUL_ACCESS_TOKEN";
     deliveryToken := getenv env "CONTENTFUL_DELIVERY_TOKEN";
     previewToken := getenv env "CONTENTFUL_PREVIEW_TOKEN";
     spaceId := getenv env "CONTENTFUL_SPACE_ID";
     environment := or_else (getenv env "CONTENTFUL_ENVIRONMENT") (VStr "master");
     preview := VBool (isDev env);
     watch := VBool (isDev env);
     host := if isDev env then VStr "preview.contentful.com" else VUndefined |}.

Record TargetNextFlags := {
  liveUpdate : value;
  flattenAssetUrls : value
}.

(** The flags among the options of [sourcebit-target-next]. *)
Definition targetNextFlags (env : gmap string string) : TargetNextFlags :=
  {| liveUpdate := VBool (isDev env);
     flattenAssetUrls := VBool true |}.

(** ** [src/components/svgs/index.js] *)







(** ** More about the file system and the heap *)

(** The directory [content/data] is there, or [mkdirSync] can create it. *)
Definition dir_ready (__dirname : path) (f : FS) : bool :=
  let dirname := path_join __dirname ["content"; "data"] in
  is_dir f dirname || is_file f dirname
  || (negb (existsb (is_file f) (ancestors dirname))
      && negb (existsb (λ q, bool_decide (q ∈ denied f) && negb (is_dir f q))
                 (ancestors dirname))).

(** The directories after [saveThemeStyle] has made sure of [content/data]. *)
Definition dirs_ensured (__dirname : path) (f : FS) : gset path :=
  let dirname := path_join __dirname ["content"; "data"] in
  if is_dir f dirname || is_file f dirname then dirs f
  else dirs f ∪ list_to_set (ancestors dirname).

(** A computation that only allocates: whatever its outcome, the heap it
    leaves is the heap it was given followed by new cells, and the file
    system is as it was. *)
Definition allocates_only {A} (m : M A) : Prop :=
  ∀ w r w', m w = (r, w') → fs w' = fs w ∧ ∃ new, heap w' = heap w ++ new.

(** A page record of the heap [h'] allocated past the first [n] cells,
    whose metadata record is allocated past them too. *)
Definition fresh_page (n : nat) (h' : list cell) (out : value) : Prop :=
  ∃ (lp lm : loc) (o' : gmap string value),
    out = VRef lp ∧ (n ≤ lp)%nat ∧ h' !! lp = Some (Obj o') ∧
    o' !! "__metadata" = Some (VRef lm) ∧ (n ≤ lm)%nat ∧
    is_Some (record_of h' (VRef lm)).

(** A [Config] entry followed by an entry without a metadata record and by
    a hole; the array of entries is at location 3. *)
Definition configFirstHeap : list cell :=
  [ Obj {[ "modelName" := VStr "Config" ]};
    Obj {[ "__metadata" := VRef 0 ]};
    Obj {[ "slug" := VStr "/broken" ]};
    Arr [VRef 1; VRef 2; VUndefined] ].

Definition configFirstWorld : world := World configFirstHeap emptyFS.

(** The argument of [transform] for a collection whose first entry has no
    metadata record and whose second entry is a [ThemeStyle]. *)
Definition brokenThemeHeap : list cell :=
  [ Obj {[ "data" := VRef 1 ]};
    Obj {[ "objects" := VRef 2 ]};
    Arr [VRef 3; VRef 5];
    Obj {[ "slug" := VStr "/broken" ]};
    Obj {[ "modelName" := VStr "ThemeStyle" ]};
    Obj {[ "__metadata" := VRef 4; "primaryColor" := VStr "blue" ]} ].

Definition brokenThemeWorld : world := World brokenThemeHeap emptyFS.

(** The argument of [transform] for a [ThemeStyle] entry that refers to
    itself, which no serializer can print. *)
Definition cyclicThemeHeap : list cell :=
  [ Obj {[ "data" := VRef 1 ]};
    Obj {[ "objects" := VRef 2 ]};
    Arr [VRef 4];
    Obj {[ "modelName" := VStr "ThemeStyle" ]};
    Obj {[ "__metadata" := VRef 3; "self" := VRef 4 ]} ].

Definition cyclicThemeWorld : world := World cyclicThemeHeap emptyFS.

(** An argument of [transform] without [objects]. *)
Definition noObjectsHeap : list cell :=
  [ Obj {[ "data" := VRef 1 ]};
    Obj {[ "pages" := VNull ]} ].

Definition noObjectsWorld : world := World noObjectsHeap emptyFS.

(** * Properties *)

(** Closed decidable facts about the example heaps are settled by
    evaluation. *)
Ltac by_evaluation := apply (bool_decide_unpack _); vm_compute; exact I.

(** ** The monad and property access *)

Lemma bind_ok {A B} (m : M A) (k : A → M B) w a w' :
  m w = (Ok a, w') → bind m k w = k a w'.
Proof. unfold bind. by intros ->. Qed.

Lemma bind_throw {A B} (m : M A) (k : A → M B) w e w' :
  m w = (Throw e, w') → bind m k w = (Throw e, w').
Proof. unfold bind. by intros ->. Qed.

Lemma record_of_ref h v o :
  record_of h v = Some o → ∃ l, v = VRef l ∧ h !! l = Some (Obj o).
Proof.
  destruct v as [| | | | |l]; simpl; try discriminate.
  destruct (h !! l) as [[o'|vs]|] eqn:E; try discriminate.
  intros [= ->]. eauto.
Qed.

Lemma record_of_app h k v o :
  record_of h v = Some o → record_of (h ++ k) v = Some o.
Proof.
  intros (l & -> & Hl)%record_of_ref. simpl.
  by rewrite (lookup_app_l_Some _ _ _ _ Hl).
Qed.

Lemma metadata_of_inv h page md :
  metadata_of h page = Some md →
  ∃ o m, record_of h page = Some o ∧ o !! "__metadata" = Some m
         ∧ record_of h m = Some md.
Proof.
  unfold metadata_of. intros H.
  destruct (record_of h page) as [o|] eqn:Eo; [|discriminate]. simpl in H.
  destruct (o !! "__metadata") as [m|] eqn:Em; [|discriminate]. simpl in H.
  eauto.
Qed.

Lemma metadata_of_app h k page md :
  metadata_of h page = Some md → metadata_of (h ++ k) page = Some md.
Proof.
  intros (o & m & Ho & Hm & Hmd)%metadata_of_inv. unfold metadata_of.
  rewrite (record_of_app _ k _ _ Ho). simpl. rewrite Hm. simpl.
  by apply record_of_app.
Qed.

Lemma ContentEntry_app h k page :
  ContentEntry h page → ContentEntry (h ++ k) page.
Proof. intros [md H]. exists md. by apply metadata_of_app. Qed.

Lemma tag_of_app h k page :
  ContentEntry h page → tag_of (h ++ k) page = tag_of h page.
Proof.
  intros [md H]. unfold tag_of. by rewrite (metadata_of_app _ k _ _ H), H.
Qed.

Lemma own_props_record h v o : record_of h v = Some o → own_props h v = o.
Proof. intros (l & -> & Hl)%record_of_ref. simpl. by rewrite Hl. Qed.

Lemma get_record w v o k :
  record_of (heap w) v = Some o →
  get v k w = (Ok (default VUndefined (o !! k)), w).
Proof.
  intros (l & -> & Hl)%record_of_ref. unfold get. simpl. by rewrite Hl.
Qed.

Lemma modelName_entry w page :
  ContentEntry (heap w) page →
  modelName page w = (Ok (tag_of (heap w) page), w).
Proof.
  intros [md H]. unfold tag_of. rewrite H. simpl.
  apply metadata_of_inv in H as (o & m & Ho & Hm & Hmd).
  unfold modelName. rewrite (bind_ok _ _ _ _ _ (get_record w page o _ Ho)).
  rewrite Hm. simpl. by apply get_record.
Qed.

Lemma modelName_lacks w page :
  lacks_metadata (heap w) page → modelName page w = (Throw CannotRead, w).
Proof.
  intros (o & Ho & Hm). unfold modelName.
  rewrite (bind_ok _ _ _ _ _ (get_record w page o _ Ho)).
  by destruct Hm as [-> | [-> | ->]].
Qed.

(** ** The array loops under callbacks that only read *)

Lemma find_loop_read cb (f : value → value) vs w :
  (∀ x, x ∈ vs → cb x w = (Ok (f x), w)) →
  find_loop cb vs w
  = (Ok (default VUndefined (List.find (λ x, truthy (f x)) vs)), w).
Proof.
  induction vs as [|x vs IH]; intros Hcb; [done|]. simpl.
  rewrite (bind_ok _ _ _ _ _ (Hcb x (list_elem_of_here _ _))).
  destruct (truthy (f x)); [done|].
  apply IH. intros y Hy. apply Hcb. by apply list_elem_of_further.
Qed.

Lemma find_loop_skip cb pre rest w :
  (∀ x, x ∈ pre → ∃ r, cb x w = (Ok r, w) ∧ truthy r = false) →
  find_loop cb (pre ++ rest) w = find_loop cb rest w.
Proof.
  induction pre as [|x pre IH]; intros Hcb; [done|]. simpl.
  destruct (Hcb x (list_elem_of_here _ _)) as (r & Hr & Hf).
  rewrite (bind_ok _ _ _ _ _ Hr), Hf.
  apply IH. intros y Hy. apply Hcb. by apply list_elem_of_further.
Qed.

Lemma filter_loop_read cb (f : value → value) vs w :
  (∀ x, x ∈ vs → cb x w = (Ok (f x), w)) →
  filter_loop cb vs w = (Ok (List.filter (λ x, truthy (f x)) vs), w).
Proof.
  induction vs as [|x vs IH]; intros Hcb; [done|]. simpl.
  rewrite (bind_ok _ _ _ _ _ (Hcb x (list_elem_of_here _ _))).
  rewrite (bind_ok _ _ _ _ _ (IH (λ y Hy, Hcb y (list_elem_of_further _ _ _ Hy)))).
  unfold ret. by destruct (truthy (f x)).
Qed.

Lemma filter_loop_throw cb (f : value → value) pre x post e w :
  (∀ y, y ∈ pre → cb y w = (Ok (f y), w)) →
  cb x w = (Throw e, w) →
  filter_loop cb (pre ++ x :: post) w = (Throw e, w).
Proof.
  induction pre as [|y pre IH]; intros Hcb Hx; simpl.
  - by rewrite (bind_throw _ _ _ _ _ Hx).
  - rewrite (bind_ok _ _ _ _ _ (Hcb y (list_elem_of_here _ _))).
    by rewrite (bind_throw _ _ _ _ _
                  (IH (λ z Hz, Hcb z (list_elem_of_further _ _ _ Hz)) Hx)).
Qed.

Lemma array_elements_ok w l vs :
  heap w !! l = Some (Arr vs) → array_elements (VRef l) w = (Ok vs, w).
Proof. unfold array_elements. by intros ->. Qed.

Lemma filter_length_le {A} (f : A → bool) (l : list A) :
  (length (List.filter f l) ≤ length l)%nat.
Proof. induction l as [|x l IH]; simpl; [lia|]. destruct (f x); simpl; lia. Qed.

Lemma filter_Forall {A} (f : A → bool) (l : list A) :
  Forall (λ x, f x = true) (List.filter f l).
Proof.
  induction l as [|x l IH]; simpl; [constructor|].
  destruct (f x) eqn:E; [by constructor|done].
Qed.

Lemma filter_sub {A} (P : A → Prop) (f : A → bool) (l : list A) :
  Forall P l → Forall P (List.filter f l).
Proof.
  induction 1 as [|x l Hx Hl IH]; simpl; [constructor|].
  destruct (f x); [by constructor|done].
Qed.

Lemma Forall2_transfer {A B} (R : A → B → Prop) (P : A → Prop) (Q : B → Prop) xs ys :
  Forall2 R xs ys → Forall P xs → (∀ x y, R x y → P x → Q y) → Forall Q ys.
Proof.
  intros HR HP Himp. induction HR as [|x y xs ys Hxy _ IH]; [constructor|].
  apply Forall_cons in HP as [Hx HP]. constructor; eauto.
Qed.

Lemma find_none_iff {A} (f : A → bool) (l : list A) :
  Forall (λ x, f x = false) l → List.find f l = None.
Proof. induction 1 as [|x l Hx Hl IH]; simpl; [done|]. by rewrite Hx. Qed.

Lemma find_first {A} (f : A → bool) (pre : list A) x post :
  Forall (λ y, f y = false) pre → f x = true →
  List.find f (pre ++ x :: post) = Some x.
Proof.
  induction 1 as [|y l Hy Hl IH]; simpl; intros Hx; [by rewrite Hx|].
  rewrite Hy. by apply IH.
Qed.

(** ** The options of [sourcebit-target-next] *)

Section TargetNext.

Variable getPageUrl : list cell → value → string.

Lemma isPage_entry w page :
  ContentEntry (heap w) page →
  isPage page w = (Ok (VBool (is_page (heap w) page)), w).
Proof.
  intros H. unfold isPage. by rewrite (bind_ok _ _ _ _ _ (modelName_entry w page H)).
Qed.

Lemma isConfig_entry w page :
  ContentEntry (heap w) page →
  isConfig page w = (Ok (VBool (has_tag "Config" (heap w) page)), w).
Proof.
  intros H. unfold isConfig. by rewrite (bind_ok _ _ _ _ _ (modelName_entry w page H)).
Qed.

Lemma pageProps_entry w page o md :
  record_of (heap w) page = Some o →
  metadata_of (heap w) page = Some md →
  pageProps getPageUrl page w
  = (Ok (VRef (length (heap w) + 2)),
     World (heap w ++
              [ Arr (VStr <$> pageCssClasses (getPageUrl (heap w) page));
                Obj (<["pageCssClasses" := VRef (length (heap w))]>
                       (<["urlPath" := VStr (getPageUrl (heap w) page)]> md));
                Obj (delete "__metadata" o
                     ∪ {[ "__metadata" := VRef (length (heap w) + 1) ]}) ])
           (fs w)).
Proof.
  intros Ho Hmd. destruct w as [h f]. simpl in *.
  destruct (metadata_of_inv _ _ _ Hmd) as (o' & m & Ho' & Hm & Hrec).
  assert (o' = o) as -> by congruence.
  unfold pageProps.
  rewrite (bind_ok _ _ _ _ _ (get_record (World h f) page o _ Ho)), Hm. simpl.
  destruct (record_of_ref _ _ _ Ho) as (l & -> & Hl).
  unfold bind at 1. simpl. rewrite Hl.
  unfold bind at 1. simpl.
  unfold bind at 1. simpl.
  rewrite (own_props_record _ _ _ Hrec).
  unfold bind at 1. simpl.
  unfold bind at 1. simpl.
  unfold new_object, alloc. simpl.
  rewrite !length_app. simpl.
  rewrite <- !app_assoc. simpl.
  by replace (length h + 1 + 1) with (length h + 2) by lia.
Qed.

Lemma page_built_app h h' k src out :
  page_built getPageUrl h h' src out →
  page_built getPageUrl h (h' ++ k) src out.
Proof.
  intros (o & md & lp & lm & lc & k0 & Ho & Hmd & -> & Hp & Hm & Hc).
  exists o, md, lp, lm, lc, k0.
  repeat split; try done; by apply lookup_app_l_Some.
Qed.

Lemma map_loop_pageProps h0 ps :
  Forall (ContentEntry h0) ps →
  ∀ w k0, heap w = h0 ++ k0 →
    ∃ rs k, map_loop (pageProps getPageUrl) ps w
            = (Ok rs, World (heap w ++ k) (fs w))
            ∧ Forall2 (page_built getPageUrl h0 (heap w ++ k)) ps rs.
Proof.
  induction 1 as [|page ps [md Hmd] Hps IH]; intros w k0 Hw.
  - exists [], []. rewrite app_nil_r. destruct w. by split; [|constructor].
  - destruct (metadata_of_inv _ _ _ Hmd) as (o & m & Ho & Hm & Hrec).
    pose proof (pageProps_entry w page o md) as Hpp.
    rewrite Hw in Hpp at 1 2.
    specialize (Hpp (record_of_app _ k0 _ _ Ho) (metadata_of_app _ k0 _ _ Hmd)).
    remember [Arr _; Obj _; Obj _] as cs eqn:Hcs in Hpp.
    destruct (IH (World (heap w ++ cs) (fs w)) (k0 ++ cs)) as (rs & k & Hrs & Hbuilt).
    { simpl. rewrite Hw. symmetry. apply app_assoc. }
    simpl in Hrs, Hbuilt.
    exists (VRef (length (heap w) + 2) :: rs), (cs ++ k). split.
    + simpl. rewrite (bind_ok _ _ _ _ _ Hpp), (bind_ok _ _ _ _ _ Hrs).
      unfold ret. by rewrite app_assoc.
    + rewrite app_assoc. constructor; [|done].
      apply page_built_app.
      exists o, md, (length (heap w) + 2), (length (heap w) + 1), (length (heap w)), k0.
      rewrite <- Hw. subst cs. repeat split; try done.
      * rewrite lookup_app_r by lia.
        by replace (length (heap w) + 2 - length (heap w)) with 2 by lia.
      * rewrite lookup_app_r by lia.
        by replace (length (heap w) + 1 - length (heap w)) with 1 by lia.
      * rewrite lookup_app_r by lia.
        by replace (length (heap w) - length (heap w)) with 0 by lia.
Qed.

Lemma pages_entries w lo objs :
  heap w !! lo = Some (Arr objs) →
  Forall (ContentEntry (heap w)) objs →
  ∃ lout ps k,
    pages getPageUrl (VRef lo) w = (Ok (VRef lout), World (heap w ++ k) (fs w))
    ∧ (heap w ++ k) !! lout = Some (Arr ps)
    ∧ Forall2 (page_built getPageUrl (heap w) (heap w ++ k))
              (List.filter (is_page (heap w)) objs) ps.
Proof.
  intros Hlo Hobjs.
  assert (Array_filter isPage (VRef lo) w
          = (Ok (List.filter (is_page (heap w)) objs), w)) as Hfilter.
  { unfold Array_filter.
    rewrite (bind_ok _ _ _ _ _ (array_elements_ok w lo objs Hlo)).
    apply (filter_loop_read isPage (λ x, VBool (is_page (heap w) x))).
    intros x Hx. apply isPage_entry. by eapply Forall_forall in Hobjs. }
  destruct (map_loop_pageProps (heap w) (List.filter (is_page (heap w)) objs)
              (filter_sub _ _ _ Hobjs) w [] (eq_sym (app_nil_r _)))
    as (rs & k & Hmap & Hbuilt).
  exists (length (heap w ++ k)), rs, (k ++ [Arr rs]). split; [|split].
  - unfold pages.
    rewrite (bind_ok _ _ _ _ _ Hfilter), (bind_ok _ _ _ _ _ Hmap).
    unfold new_array, alloc. simpl. by rewrite <- app_assoc.
  - rewrite app_assoc. by rewrite lookup_app_r, Nat.sub_diag by lia.
  - rewrite app_assoc. eapply Forall2_impl; [exact Hbuilt|].
    intros src out. apply page_built_app.
Qed.

End TargetNext.

(** ** From the cells [pages] allocates to the page records *)

Lemma page_built_enriched gp h h' src out :
  page_built gp h h' src out → enriched h h' src out.
Proof.
  intros (o & md & lp & lm & lc & k & Ho & Hmd & -> & Hp & Hm & Hc).
  exists o, md, (delete "__metadata" o ∪ {[ "__metadata" := VRef lm ]}),
    (<["pageCssClasses" := VRef lc]> (<["urlPath" := VStr (gp (h ++ k) src)]> md)).
  assert ((delete "__metadata" o ∪ {[ "__metadata" := VRef lm ]} : gmap string value)
            !! "__metadata" = Some (VRef lm)) as Hmeta.
  { apply lookup_union_Some_raw. right.
    split; [apply lookup_delete_eq | apply lookup_singleton_eq]. }
  repeat split; try done.
  - simpl. by rewrite Hp.
  - unfold metadata_of. simpl. rewrite Hp. simpl. rewrite Hmeta. simpl. by rewrite Hm.
  - intros k' Hk'. rewrite lookup_union, lookup_delete_ne, lookup_singleton_ne by done.
    by destruct (o !! k').
  - intros k' Hu Hc'. by rewrite !lookup_insert_ne.
  - exists (gp (h ++ k) src), lc. repeat split; [|apply lookup_insert_eq|done].
    rewrite lookup_insert_ne by done. apply lookup_insert_eq.
Qed.

Lemma enriched_page_of h h' src out : enriched h h' src out → page_of h h' src out.
Proof.
  intros (o & md & o' & md' & Ho & Hmd & Ho' & Hmd' & Hfields & Hmeta & _).
  exists o, o'. repeat split; try done.
  unfold tag_of. rewrite Hmd, Hmd'. simpl. by rewrite Hmeta.
Qed.

Lemma page_of_tag h h' src out :
  page_of h h' src out → is_page h src = true →
  ∃ s, tag_of h' out = VStr s ∧ s ∈ pageModels.
Proof.
  intros (o & o' & _ & _ & _ & Htag). unfold is_page. rewrite Htag.
  destruct (tag_of h src) as [| | | |s|]; simpl; try discriminate.
  intros H%bool_decide_eq_true. eauto.
Qed.

(** ** [pages] and [commonProps] *)

(** C1. On a collection of content entries, [pages] returns an array with
    one record for each entry whose model tag is [PageLayout],
    [PostFeedLayout] or [PostLayout], in the order of the input: the
    order-preserving filter of the input.  So the output is no longer than
    the input and the tag of every output record is in the allow-list. *)
Theorem pages_order_preserving_filter gp w lo objs :
  heap w !! lo = Some (Arr objs) →
  Forall (ContentEntry (heap w)) objs →
  ∃ lout ps w',
    pages gp (VRef lo) w = (Ok (VRef lout), w')
    ∧ heap w' !! lout = Some (Arr ps)
    ∧ Forall2 (page_of (heap w) (heap w')) (List.filter (is_page (heap w)) objs) ps
    ∧ (length ps ≤ length objs)%nat
    ∧ Forall (λ p, ∃ s, tag_of (heap w') p = VStr s ∧ s ∈ pageModels) ps.
Proof.
  intros Hlo Hobjs.
  destruct (pages_entries gp w lo objs Hlo Hobjs) as (lout & ps & k & Hrun & Hout & Hbuilt).
  assert (Forall2 (page_of (heap w) (heap w ++ k))
            (List.filter (is_page (heap w)) objs) ps) as Hpages.
  { eapply Forall2_impl; [exact Hbuilt|].
    intros src out H. by eapply enriched_page_of, page_built_enriched. }
  exists lout, ps, (World (heap w ++ k) (fs w)). simpl.
  repeat split; try done.
  - rewrite <- (Forall2_length _ _ _ Hpages). apply filter_length_le.
  - eapply Forall2_transfer; [exact Hpages|apply filter_Forall|].
    intros src out H Hsrc. simpl in Hsrc. by eapply page_of_tag.
Qed.

Lemma pages_order_preserving_filter_witness :
  ∃ lout ps w',
    pages slugUrl (VRef 4) exampleWorld = (Ok (VRef lout), w')
    ∧ heap w' !! lout = Some (Arr ps)
    ∧ Forall2 (page_of exampleHeap (heap w'))
              (List.filter (is_page exampleHeap) [VRef 1; VRef 3]) ps
    ∧ (length ps ≤ 2)%nat
    ∧ Forall (λ p, ∃ s, tag_of (heap w') p = VStr s ∧ s ∈ pageModels) ps.
Proof.
  apply (pages_order_preserving_filter slugUrl exampleWorld 4 [VRef 1; VRef 3]).
  - reflexivity.
  - by_evaluation.
Defined.

(** C9. Every record [pages] returns keeps each field of its entry other
    than the metadata record; the computed [urlPath] and [pageCssClasses]
    go into a metadata record that keeps the original metadata fields.  All
    the records are new cells: the heap the call leaves is the heap it was
    given followed by the new cells, so neither the input array nor any of
    its entries is modified, and the file system is untouched. *)
Theorem pages_preserves_fields gp w lo objs :
  heap w !! lo = Some (Arr objs) →
  Forall (ContentEntry (heap w)) objs →
  ∃ lout ps new,
    pages gp (VRef lo) w = (Ok (VRef lout), World (heap w ++ new) (fs w))
    ∧ (heap w ++ new) !! lout = Some (Arr ps)
    ∧ Forall2 (enriched (heap w) (heap w ++ new))
              (List.filter (is_page (heap w)) objs) ps
    ∧ (heap w ++ new) !! lo = Some (Arr objs)
    ∧ (∀ l c, heap w !! l = Some c → (heap w ++ new) !! l = Some c).
Proof.
  intros Hlo Hobjs.
  destruct (pages_entries gp w lo objs Hlo Hobjs) as (lout & ps & k & Hrun & Hout & Hbuilt).
  exists lout, ps, k. repeat split; try done.
  - eapply Forall2_impl; [exact Hbuilt|]. intros src out. apply page_built_enriched.
  - by apply lookup_app_l_Some.
  - intros l c. apply lookup_app_l_Some.
Qed.

Lemma pages_preserves_fields_witness :
  ∃ lout ps new,
    pages slugUrl (VRef 4) exampleWorld
    = (Ok (VRef lout), World (exampleHeap ++ new) emptyFS)
    ∧ (exampleHeap ++ new) !! lout = Some (Arr ps)
    ∧ Forall2 (enriched exampleHeap (exampleHeap ++ new))
              (List.filter (is_page exampleHeap) [VRef 1; VRef 3]) ps
    ∧ (exampleHeap ++ new) !! 4 = Some (Arr [VRef 1; VRef 3])
    ∧ (∀ l c, exampleHeap !! l = Some c → (exampleHeap ++ new) !! l = Some c).
Proof.
  apply (pages_preserves_fields slugUrl exampleWorld 4 [VRef 1; VRef 3]).
  - reflexivity.
  - by_evaluation.
Defined.

Lemma pages_lacking_metadata gp w lo pre x post :
  heap w !! lo = Some (Arr (pre ++ x :: post)) →
  Forall (ContentEntry (heap w)) pre →
  lacks_metadata (heap w) x →
  pages gp (VRef lo) w = (Throw CannotRead, w).
Proof.
  intros Hlo Hpre Hx. unfold pages.
  apply bind_throw. unfold Array_filter.
  rewrite (bind_ok _ _ _ _ _ (array_elements_ok w lo _ Hlo)).
  apply (filter_loop_throw isPage (λ y, VBool (is_page (heap w) y))).
  - intros y Hy. apply isPage_entry. by eapply Forall_forall in Hpre.
  - unfold isPage. apply bind_throw. by apply modelName_lacks.
Qed.

Lemma untagged_not_page h x : tag_of h x = VUndefined → is_page h x = false.
Proof. unfold is_page. by intros ->. Qed.

(** C3, as amended.  An entry whose metadata record carries no model tag is
    left out of the result of [pages], silently, and the other entries are
    still processed; an entry without a metadata record makes [pages] throw
    a [TypeError]: no page list is produced and the world is left as it
    was. *)
Theorem pages_malformed_entries gp w lo objs :
  heap w !! lo = Some (Arr objs) →
  (∀ pre x post,
      objs = pre ++ x :: post →
      Forall (ContentEntry (heap w)) pre →
      lacks_metadata (heap w) x →
      pages gp (VRef lo) w = (Throw CannotRead, w))
  ∧ (Forall (ContentEntry (heap w)) objs →
     ∃ lout ps new,
       pages gp (VRef lo) w = (Ok (VRef lout), World (heap w ++ new) (fs w))
       ∧ (heap w ++ new) !! lout = Some (Arr ps)
       ∧ Forall2 (page_of (heap w) (heap w ++ new))
                 (List.filter (is_page (heap w)) objs) ps
       ∧ ∀ x, x ∈ objs → tag_of (heap w) x = VUndefined →
              ¬ In x (List.filter (is_page (heap w)) objs)).
Proof.
  intros Hlo. split.
  - intros pre x post -> Hpre Hx. by eapply pages_lacking_metadata.
  - intros Hobjs.
    destruct (pages_entries gp w lo objs Hlo Hobjs) as (lout & ps & k & Hrun & Hout & Hbuilt).
    exists lout, ps, k. repeat split; try done.
    + eapply Forall2_impl; [exact Hbuilt|].
      intros src out H. by eapply enriched_page_of, page_built_enriched.
    + intros x _ Htag [_ Hin]%filter_In.
      rewrite (untagged_not_page _ _ Htag) in Hin. discriminate.
Qed.

Lemma pages_malformed_entries_witness :
  pages slugUrl (VRef 3) brokenWorld = (Throw CannotRead, brokenWorld).
Proof.
  refine (proj1 (pages_malformed_entries slugUrl brokenWorld 3 [VRef 0; VRef 2] _)
            [] (VRef 0) [VRef 2] _ _ _).
  - reflexivity.
  - reflexivity.
  - constructor.
  - exists {[ "slug" := VStr "/broken" ]}. split; [reflexivity|]. left. by vm_compute.
Defined.

(** C3, as stated, fails: a collection whose first entry has no metadata
    record and whose second entry is a well-formed page yields no page at
    all; [pages] throws instead of skipping the first entry. *)
Lemma malformed_entry_aborts_batch :
  lacks_metadata brokenHeap (VRef 0)
  ∧ ContentEntry brokenHeap (VRef 2)
  ∧ is_page brokenHeap (VRef 2) = true
  ∧ brokenHeap !! 3 = Some (Arr [VRef 0; VRef 2])
  ∧ ¬ ∃ out w', pages slugUrl (VRef 3) brokenWorld = (Ok out, w').
Proof.
  split; [|split; [|split; [|split]]].
  - exists {[ "slug" := VStr "/broken" ]}. split; [reflexivity|]. left. by vm_compute.
  - by_evaluation.
  - by vm_compute.
  - reflexivity.
  - intros (out & w' & H). vm_compute in H. discriminate.
Qed.

Lemma Array_find_read cb (f : value → value) w lo objs :
  heap w !! lo = Some (Arr objs) →
  (∀ x, x ∈ objs → cb x w = (Ok (f x), w)) →
  Array_find cb (VRef lo) w
  = (Ok (default VUndefined (List.find (λ x, truthy (f x)) objs)), w).
Proof.
  intros Hlo Hcb. unfold Array_find.
  rewrite (bind_ok _ _ _ _ _ (array_elements_ok w lo objs Hlo)).
  by apply find_loop_read.
Qed.

Lemma commonProps_entries w lo objs :
  heap w !! lo = Some (Arr objs) →
  Forall (ContentEntry (heap w)) objs →
  commonProps (VRef lo) w
  = (Ok (VRef (length (heap w))),
     World (heap w ++ [Obj {[ "site" := default VUndefined
                                (List.find (has_tag "Config" (heap w)) objs) ]}])
           (fs w)).
Proof.
  intros Hlo Hobjs. unfold commonProps.
  rewrite (bind_ok _ _ _ _ _
             (Array_find_read isConfig (λ x, VBool (has_tag "Config" (heap w) x))
                w lo objs Hlo
                (λ x Hx, isConfig_entry w x (proj1 (Forall_forall _ _) Hobjs x Hx)))).
  reflexivity.
Qed.

(** C4. On a collection of content entries, [commonProps] returns a new
    object whose [site] is the first entry, in input order, tagged
    [Config]: the entry itself, not a copy.  When no entry carries the tag,
    and so on the empty collection, [site] is [undefined] and the call
    still returns normally. *)
Theorem commonProps_first_config w lo objs :
  heap w !! lo = Some (Arr objs) →
  Forall (ContentEntry (heap w)) objs →
  ∃ site,
    commonProps (VRef lo) w
    = (Ok (VRef (length (heap w))),
       World (heap w ++ [Obj {[ "site" := site ]}]) (fs w))
    ∧ site = default VUndefined (List.find (has_tag "Config" (heap w)) objs)
    ∧ (∀ pre x post,
         objs = pre ++ x :: post →
         Forall (λ y, has_tag "Config" (heap w) y = false) pre →
         has_tag "Config" (heap w) x = true →
         site = x)
    ∧ (Forall (λ y, has_tag "Config" (heap w) y = false) objs → site = VUndefined)
    ∧ (objs = [] → site = VUndefined).
Proof.
  intros Hlo Hobjs.
  exists (default VUndefined (List.find (has_tag "Config" (heap w)) objs)).
  split; [|split; [done|split; [|split]]].
  - by apply commonProps_entries.
  - intros pre x post -> Hpre Hx. by rewrite (find_first _ _ _ _ Hpre Hx).
  - intros Hnone. by rewrite (find_none_iff _ _ Hnone).
  - by intros ->.
Qed.

Lemma commonProps_first_config_witness :
  ∃ site,
    commonProps (VRef 4) exampleWorld
    = (Ok (VRef 5), World (exampleHeap ++ [Obj {[ "site" := site ]}]) emptyFS)
    ∧ site = VRef 1.
Proof.
  destruct (commonProps_first_config exampleWorld 4 [VRef 1; VRef 3])
    as (site & Hrun & Hsite & _).
  - reflexivity.
  - by_evaluation.
  - exists site. split; [exact Hrun|]. rewrite Hsite. by vm_compute.
Defined.

(** ** Two runs on the same collection *)

Lemma closed_lookup h l c :
  closed h = true → h !! l = Some c → cell_valid (length h) c = true.
Proof.
  unfold closed. rewrite forallb_forall. intros Hall Hl.
  apply Hall, list_elem_of_In. by eapply list_elem_of_lookup_2.
Qed.

Lemma cell_valid_field n (o : gmap string value) k v :
  cell_valid n (Obj o) = true → o !! k = Some v → valid n v = true.
Proof.
  simpl. rewrite forallb_forall. intros Hall Hk.
  apply (Hall (k, v)), list_elem_of_In. by apply elem_of_map_to_list.
Qed.

Lemma cell_valid_elem n vs v :
  cell_valid n (Arr vs) = true → v ∈ vs → valid n v = true.
Proof.
  simpl. rewrite forallb_forall. intros Hall Hv. by apply Hall, list_elem_of_In.
Qed.

(** In a closed heap, what a valid value denotes does not change when cells
    are added. *)
Lemma reify_app h k n :
  closed h = true → ∀ v, valid (length h) v = true → reify n (h ++ k) v = reify n h v.
Proof.
  intros Hclosed. induction n as [|n IH]; intros v Hv; destruct v as [| | | | |l]; try done.
  simpl in Hv. apply bool_decide_eq_true in Hv.
  cbn [reify]. destruct (h !! l) as [c|] eqn:Hc;
    [|apply lookup_ge_None in Hc; lia].
  rewrite (lookup_app_l_Some _ _ _ _ Hc).
  pose proof (closed_lookup _ _ _ Hclosed Hc) as Hcell.
  destruct c as [o|vs]; f_equal.
  - apply map_fmap_ext. intros i x Hx. apply IH. by eapply cell_valid_field.
  - apply list_fmap_ext. intros i x Hx. apply IH.
    eapply cell_valid_elem; [done|]. by eapply list_elem_of_lookup_2.
Qed.

Lemma same_json_input h k1 k2 v :
  closed h = true → valid (length h) v = true → same_json (h ++ k1) (h ++ k2) v v.
Proof. intros Hclosed Hv n. by rewrite !reify_app. Qed.

Lemma same_json_primitive h1 h2 v :
  (∀ l, v ≠ VRef l) → same_json h1 h2 v v.
Proof. intros Hv n. destruct n, v; try done; by destruct (Hv l). Qed.

Lemma same_json_arrays h1 h2 l1 l2 vs1 vs2 :
  h1 !! l1 = Some (Arr vs1) → h2 !! l2 = Some (Arr vs2) →
  Forall2 (same_json h1 h2) vs1 vs2 →
  same_json h1 h2 (VRef l1) (VRef l2).
Proof.
  intros H1 H2 Hvs [|n]; simpl; [done|]. rewrite H1, H2. f_equal.
  clear H1 H2. induction Hvs as [|x y xs ys Hxy _ IH]; [done|].
  rewrite !fmap_cons. by rewrite (Hxy n), IH.
Qed.

Lemma same_json_objects h1 h2 l1 l2 (o1 o2 : gmap string value) :
  h1 !! l1 = Some (Obj o1) → h2 !! l2 = Some (Obj o2) →
  (∀ k, option_Forall2 (same_json h1 h2) (o1 !! k) (o2 !! k)) →
  same_json h1 h2 (VRef l1) (VRef l2).
Proof.
  intros H1 H2 Hfields [|n]; simpl; [done|]. rewrite H1, H2. f_equal.
  apply map_eq. intros k. rewrite !lookup_fmap.
  destruct (Hfields k) as [x y Hxy|]; simpl; [by rewrite (Hxy n)|done].
Qed.

Lemma same_json_fields h k1 k2 l (o : gmap string value) k :
  closed h = true → h !! l = Some (Obj o) →
  option_Forall2 (same_json (h ++ k1) (h ++ k2)) (o !! k) (o !! k).
Proof.
  intros Hclosed Hl. destruct (o !! k) as [v|] eqn:Hk; constructor.
  apply same_json_input; [done|].
  eapply cell_valid_field; [|done]. by eapply closed_lookup.
Qed.

Lemma page_built_same_json gp h ka kb k1 k2 src p1 p2 :
  stable_url gp →
  closed h = true →
  ContentEntry h src →
  page_built gp (h ++ ka) (h ++ k1) src p1 →
  page_built gp (h ++ kb) (h ++ k2) src p2 →
  same_json (h ++ k1) (h ++ k2) p1 p2.
Proof.
  intros Hgp Hclosed Hsrc
    (o1 & md1 & lp1 & lm1 & lc1 & j1 & Ho1 & Hmd1 & -> & Hp1 & Hm1 & Hc1)
    (o2 & md2 & lp2 & lm2 & lc2 & j2 & Ho2 & Hmd2 & -> & Hp2 & Hm2 & Hc2).
  destruct Hsrc as [md Hmd].
  destruct (metadata_of_inv _ _ _ Hmd) as (o & m & Ho & Hm & Hrec).
  rewrite (record_of_app _ ka _ _ Ho) in Ho1.
  rewrite (record_of_app _ kb _ _ Ho) in Ho2.
  rewrite (metadata_of_app _ ka _ _ Hmd) in Hmd1.
  rewrite (metadata_of_app _ kb _ _ Hmd) in Hmd2.
  injection Ho1 as <-. injection Ho2 as <-.
  injection Hmd1 as <-. injection Hmd2 as <-.
  rewrite <- app_assoc, Hgp in Hm1, Hc1 by by exists md.
  rewrite <- app_assoc, Hgp in Hm2, Hc2 by by exists md.
  destruct (record_of_ref _ _ _ Ho) as (lsrc & -> & Hlsrc).
  destruct (record_of_ref _ _ _ Hrec) as (lmd & -> & Hlmd).
  eapply same_json_objects; [exact Hp1|exact Hp2|]. intros k.
  destruct (decide (k = "__metadata")) as [->|Hk].
  - rewrite !lookup_union, !lookup_delete_eq, !lookup_singleton_eq. simpl.
    constructor.
    eapply same_json_objects; [exact Hm1|exact Hm2|]. intros k.
    destruct (decide (k = "pageCssClasses")) as [->|Hk].
    + rewrite !lookup_insert_eq. constructor.
      eapply same_json_arrays; [exact Hc1|exact Hc2|].
      apply Forall2_fmap, Forall_Forall2_diag, Forall_forall.
      intros tok _. by apply same_json_primitive.
    + rewrite !(lookup_insert_ne _ "pageCssClasses") by done.
      destruct (decide (k = "urlPath")) as [->|Hk'].
      * rewrite !lookup_insert_eq. constructor. by apply same_json_primitive.
      * rewrite !lookup_insert_ne by done. by eapply same_json_fields.
  - rewrite !lookup_union, !lookup_delete_ne, !lookup_singleton_ne by done.
    destruct (o !! k) as [v|] eqn:Hv; simpl; constructor.
    apply same_json_input; [done|].
    eapply cell_valid_field; [|done]. by eapply closed_lookup.
Qed.

Lemma Forall2_join {A B} (P : A → Prop) (R S : A → B → Prop) (T : B → B → Prop) xs ys zs :
  Forall P xs → Forall2 R xs ys → Forall2 S xs zs →
  (∀ x y z, P x → R x y → S x z → T y z) →
  Forall2 T ys zs.
Proof.
  intros HP HR. revert zs. induction HR as [|x y xs ys Hxy _ IH]; intros zs HS HT.
  - inversion HS. constructor.
  - apply Forall_cons in HP as [Hx HP].
    inversion HS as [|x' z xs' zs' Hxz HS']; subst.
    constructor; [by eapply HT|by apply IH].
Qed.

Lemma has_tag_app tag h k page :
  ContentEntry h page → has_tag tag (h ++ k) page = has_tag tag h page.
Proof. intros H. unfold has_tag. by rewrite tag_of_app. Qed.

Lemma is_page_app h k page :
  ContentEntry h page → is_page (h ++ k) page = is_page h page.
Proof. intros H. unfold is_page. by rewrite tag_of_app. Qed.

Lemma find_ext_Forall {A} (P : A → Prop) (f g : A → bool) l :
  Forall P l → (∀ x, P x → f x = g x) → List.find f l = List.find g l.
Proof.
  intros Hl Hfg. induction Hl as [|x l Hx _ IH]; simpl; [done|].
  by rewrite (Hfg x Hx), IH.
Qed.

Lemma filter_ext_Forall {A} (P : A → Prop) (f g : A → bool) l :
  Forall P l → (∀ x, P x → f x = g x) → List.filter f l = List.filter g l.
Proof.
  intros Hl Hfg. induction Hl as [|x l Hx _ IH]; simpl; [done|].
  by rewrite (Hfg x Hx), IH.
Qed.

Lemma find_valid {A} (P : A → Prop) (f : A → bool) l x :
  Forall P l → List.find f l = Some x → P x.
Proof.
  intros Hl. induction Hl as [|y l Hy _ IH]; simpl; [done|].
  destruct (f y); [by intros [= <-]|done].
Qed.

Lemma slugUrl_stable : stable_url slugUrl.
Proof.
  intros h k page [md Hmd]. unfold slugUrl.
  destruct (metadata_of_inv _ _ _ Hmd) as (o & m & Ho & _ & _).
  by rewrite (own_props_record _ _ _ (record_of_app _ k _ _ Ho)),
             (own_props_record _ _ _ Ho).
Qed.

(** C7. Running the two options of [sourcebit-target-next] twice on the
    same collection, the second run in the heap the first one left, returns
    normally both times, and the props and pages of the first run, as they
    stand after it, serialize exactly as those of the second run after it.
    The first run changes nothing the second one reads, and neither touches
    the file system. *)
Theorem targetNext_deterministic gp w lo objs :
  stable_url gp →
  closed (heap w) = true →
  heap w !! lo = Some (Arr objs) →
  Forall (ContentEntry (heap w)) objs →
  ∃ props1 pages1 w1 props2 pages2 w2,
    targetNext gp (VRef lo) w = (Ok (props1, pages1), w1)
    ∧ targetNext gp (VRef lo) w1 = (Ok (props2, pages2), w2)
    ∧ same_json (heap w1) (heap w2) props1 props2
    ∧ same_json (heap w1) (heap w2) pages1 pages2
    ∧ fs w1 = fs w ∧ fs w2 = fs w.
Proof.
  intros Hgp Hclosed Hlo Hobjs. destruct w as [h f]. simpl in *.
  (* first run *)
  pose proof (commonProps_entries (World h f) lo objs Hlo Hobjs) as Hc1.
  simpl in Hc1.
  set (site := default VUndefined (List.find (has_tag "Config" h) objs)) in Hc1.
  assert (Forall (ContentEntry (h ++ [Obj {[ "site" := site ]}])) objs) as Hobjs_a.
  { eapply Forall_impl; [exact Hobjs|]. intros x. apply ContentEntry_app. }
  destruct (pages_entries gp (World (h ++ [Obj {[ "site" := site ]}]) f) lo objs
              (lookup_app_l_Some _ _ _ _ Hlo) Hobjs_a)
    as (lout1 & ps1 & k1 & Hp1 & Hout1 & Hbuilt1).
  simpl in Hp1, Hout1, Hbuilt1.
  set (h1 := (h ++ [Obj {[ "site" := site ]}]) ++ k1) in *.
  (* second run, in the heap of the first *)
  assert (h1 = h ++ ([Obj {[ "site" := site ]}] ++ k1)) as Hh1
    by (unfold h1; by rewrite <- app_assoc).
  assert (Forall (ContentEntry h1) objs) as Hobjs1.
  { rewrite Hh1. eapply Forall_impl; [exact Hobjs|]. intros x. apply ContentEntry_app. }
  assert (h1 !! lo = Some (Arr objs)) as Hlo1.
  { rewrite Hh1. by apply lookup_app_l_Some. }
  pose proof (commonProps_entries (World h1 f) lo objs Hlo1 Hobjs1) as Hc2.
  simpl in Hc2.
  assert (default VUndefined (List.find (has_tag "Config" h1) objs) = site) as Hsite.
  { unfold site. f_equal. apply (find_ext_Forall (ContentEntry h)); [done|].
    intros x Hx. rewrite Hh1. by apply has_tag_app. }
  rewrite Hsite in Hc2.
  assert (Forall (ContentEntry (h1 ++ [Obj {[ "site" := site ]}])) objs) as Hobjs_b.
  { eapply Forall_impl; [exact Hobjs1|]. intros x. apply ContentEntry_app. }
  destruct (pages_entries gp (World (h1 ++ [Obj {[ "site" := site ]}]) f) lo objs
              (lookup_app_l_Some _ _ _ _ Hlo1) Hobjs_b)
    as (lout2 & ps2 & k2 & Hp2 & Hout2 & Hbuilt2).
  simpl in Hp2, Hout2, Hbuilt2.
  set (h2 := (h1 ++ [Obj {[ "site" := site ]}]) ++ k2) in *.
  assert (h2 = h ++ ((([Obj {[ "site" := site ]}] ++ k1) ++ [Obj {[ "site" := site ]}]) ++ k2))
    as Hh2 by (unfold h2; by rewrite Hh1, <- !app_assoc).
  assert (valid (length h) site = true) as Hvsite.
  { unfold site. destruct (List.find (has_tag "Config" h) objs) as [x|] eqn:Hfind; [|done].
    simpl. eapply (find_valid (λ v, valid (length h) v = true)); [|exact Hfind].
    apply Forall_forall. intros v Hv.
    eapply cell_valid_elem; [|exact Hv]. by eapply closed_lookup. }
  exists (VRef (length h)), (VRef lout1), (World h1 f),
         (VRef (length h1)), (VRef lout2), (World h2 f).
  split; [|split; [|split; [|split; [|done]]]].
  - unfold targetNext. by rewrite (bind_ok _ _ _ _ _ Hc1), (bind_ok _ _ _ _ _ Hp1).
  - unfold targetNext. by rewrite (bind_ok _ _ _ _ _ Hc2), (bind_ok _ _ _ _ _ Hp2).
  - simpl. apply (same_json_objects h1 h2 _ _ {[ "site" := site ]} {[ "site" := site ]}).
    + rewrite Hh1. by apply list_lookup_middle.
    + unfold h2. apply lookup_app_l_Some. by apply list_lookup_middle.
    + intros k. destruct (decide (k = "site")) as [->|Hk].
      * rewrite lookup_singleton_eq. constructor.
        rewrite Hh1, Hh2. by apply same_json_input.
      * rewrite lookup_singleton_ne by done. constructor.
  - simpl. apply (same_json_arrays h1 h2 _ _ ps1 ps2); [done|done|].
    assert (List.filter (is_page (h ++ [Obj {[ "site" := site ]}])) objs
            = List.filter (is_page h) objs) as Hf1.
    { apply (filter_ext_Forall (ContentEntry h)); [done|].
      intros x Hx. by apply is_page_app. }
    assert (List.filter (is_page (h1 ++ [Obj {[ "site" := site ]}])) objs
            = List.filter (is_page h) objs) as Hf2.
    { apply (filter_ext_Forall (ContentEntry h)); [done|].
      intros x Hx. rewrite Hh1, <- app_assoc. by apply is_page_app. }
    rewrite Hf1 in Hbuilt1. rewrite Hf2 in Hbuilt2.
    eapply (Forall2_join (ContentEntry h)); [by apply filter_sub|exact Hbuilt1|exact Hbuilt2|].
    intros x y z Hx Hy Hz. rewrite Hh1, Hh2.
    eapply (page_built_same_json gp h [Obj {[ "site" := site ]}]
              (([Obj {[ "site" := site ]}] ++ k1) ++ [Obj {[ "site" := site ]}]));
      [done|done|done| |].
    + by rewrite <- Hh1.
    + rewrite <- Hh2. unfold h2. by rewrite app_assoc, <- Hh1.
Qed.

Lemma targetNext_deterministic_witness :
  ∃ props1 pages1 w1 props2 pages2 w2,
    targetNext slugUrl (VRef 4) exampleWorld = (Ok (props1, pages1), w1)
    ∧ targetNext slugUrl (VRef 4) w1 = (Ok (props2, pages2), w2)
    ∧ same_json (heap w1) (heap w2) props1 props2
    ∧ same_json (heap w1) (heap w2) pages1 pages2
    ∧ fs w1 = emptyFS ∧ fs w2 = emptyFS.
Proof.
  apply (targetNext_deterministic slugUrl exampleWorld 4 [VRef 1; VRef 3]).
  - exact slugUrl_stable.
  - by vm_compute.
  - reflexivity.
  - by_evaluation.
Defined.

(** ** The file system *)

Lemma ancestors_self (p : path) : p ≠ [] → p ∈ ancestors p.
Proof.
  intros Hp. unfold ancestors. apply list_elem_of_fmap.
  exists (length p). split; [by rewrite firstn_all|].
  apply list_elem_of_In, in_seq. destruct p; [done|simpl; lia].
Qed.

Lemma ancestors_length (p q : path) : q ∈ ancestors p → (length q ≤ length p)%nat.
Proof.
  unfold ancestors. intros (n & -> & _)%list_elem_of_fmap. rewrite length_take. lia.
Qed.

Lemma parent_join (d : path) (name : string) : parent (path_join d [name]) = d.
Proof. apply removelast_last. Qed.

(** ** The ThemeStyle middleware *)

Section Transform.

Variable __dirname : path.
Variable JSON_stringify : list cell → value → nat → result string.

Local Abbreviation dirname := (path_join __dirname ["content"; "data"]).

Lemma stylePath_not_ancestor : stylePath __dirname ∉ ancestors dirname.
Proof.
  intros H%ancestors_length. unfold stylePath, dirname, path_join in H.
  rewrite !length_app in H. simpl in H. lia.
Qed.

Lemma saveThemeStyle_ok w object json :
  can_save __dirname (fs w) = true →
  JSON_stringify (heap w) object 4 = Ok json →
  saveThemeStyle __dirname JSON_stringify object w
  = (Ok (VBool true), World (heap w) (saved __dirname json (fs w))).
Proof.
  destruct w as [h f]. unfold can_save, saved, saveThemeStyle. simpl.
  fold dirname. change (path_join dirname ["style.json"]) with (stylePath __dirname).
  intros Hsave Hjson.
  apply andb_true_iff in Hsave as [[Hdir Hnodir]%andb_true_iff Hallowed].
  apply negb_true_iff in Hnodir, Hallowed.
  unfold bind at 1. unfold existsSync at 1. simpl.
  destruct (is_dir f dirname || is_file f dirname) eqn:Hfound; simpl.
  - unfold bind at 1. unfold ret at 1.
    unfold bind at 1. unfold stringify at 1. simpl. rewrite Hjson.
    unfold bind at 1. unfold writeFileSync at 1. simpl.
    change (path_join dirname ["style.json"]) with (stylePath __dirname).
    unfold stylePath at 1. rewrite parent_join. fold dirname. rewrite Hdir. simpl.
    by rewrite Hnodir, Hallowed.
  - apply andb_true_iff in Hdir as [Hfiles%negb_true_iff Hdenied%negb_true_iff].
    unfold bind at 1. unfold mkdirSync at 1. simpl. rewrite Hfiles, Hdenied.
    unfold bind at 1. unfold stringify at 1. simpl. rewrite Hjson.
    unfold bind at 1. unfold writeFileSync at 1. simpl.
    change (path_join dirname ["style.json"]) with (stylePath __dirname).
    unfold stylePath at 1. rewrite parent_join. fold dirname.
    assert (is_dir (mkFS (dirs f ∪ list_to_set (ancestors dirname)) (files f) (denied f))
              dirname = true) as ->.
    { unfold is_dir. simpl. apply orb_true_iff. right. apply bool_decide_eq_true.
      apply elem_of_union_r, elem_of_list_to_set, ancestors_self.
      unfold dirname, path_join. by destruct __dirname. }
    assert (is_dir (mkFS (dirs f ∪ list_to_set (ancestors dirname)) (files f) (denied f))
              (stylePath __dirname) = false) as ->.
    { unfold is_dir in *. simpl. apply orb_false_iff in Hnodir as [Hnil Hin].
      apply orb_false_iff. split; [done|]. apply bool_decide_eq_false.
      apply bool_decide_eq_false in Hin.
      intros [?|?%elem_of_list_to_set]%elem_of_union; [done|].
      by apply stylePath_not_ancestor. }
    simpl. by rewrite Hallowed.
Qed.

(** Whatever happens in [saveThemeStyle], the heap is left alone and no
    file other than [style.json] changes. *)
Lemma saveThemeStyle_frame w object r w' :
  saveThemeStyle __dirname JSON_stringify object w = (r, w') →
  heap w' = heap w
  ∧ ∀ p, p ≠ stylePath __dirname → files (fs w') !! p = files (fs w) !! p.
Proof.
  destruct w as [h f]. unfold saveThemeStyle, bind, existsSync, mkdirSync,
    stringify, writeFileSync, ret. simpl.
  change (path_join (path_join __dirname ["content"; "data"]) ["style.json"])
    with (stylePath __dirname).
  repeat (match goal with
          | |- context [if ?b then _ else _] => destruct b
          | |- context [match ?x with Ok _ => _ | Throw _ => _ end] => destruct x
          end; simpl);
    intros [= <- <-]; simpl; split; try done;
    intros p Hp; by rewrite lookup_insert_ne.
Qed.

End Transform.

Lemma find_split {A} (f : A → bool) (l : list A) x :
  List.find f l = Some x →
  ∃ pre post, l = pre ++ x :: post ∧ Forall (λ y, f y = false) pre ∧ f x = true.
Proof.
  induction l as [|y l IH]; simpl; [done|].
  destruct (f y) eqn:Hy.
  - intros [= ->]. by exists [], l.
  - intros (pre & post & -> & Hpre & Hx)%IH.
    exists (y :: pre), post. split; [done|]. split; [by constructor|done].
Qed.

Section TransformSpec.

Variable __dirname : path.
Variable JSON_stringify : list cell → value → nat → result string.

Lemma saveThemeStyle_value w object r w' :
  saveThemeStyle __dirname JSON_stringify object w = (Ok r, w') → r = VBool true.
Proof.
  unfold saveThemeStyle, bind, existsSync, mkdirSync, stringify, writeFileSync, ret.
  repeat (match goal with
          | |- context [if ?b then _ else _] => destruct b
          | |- context [match ?x with Ok _ => _ | Throw _ => _ end] => destruct x
          end; simpl);
    by intros [= <- <-].
Qed.

Lemma themeStyleCallback_other w x :
  ContentEntry (heap w) x → has_tag "ThemeStyle" (heap w) x = false →
  themeStyleCallback __dirname JSON_stringify x w = (Ok VUndefined, w).
Proof.
  intros Hx Htag. unfold themeStyleCallback.
  rewrite (bind_ok _ _ _ _ _ (modelName_entry w x Hx)).
  unfold has_tag in Htag. by rewrite Htag.
Qed.

Lemma themeStyleCallback_theme w x :
  ContentEntry (heap w) x → has_tag "ThemeStyle" (heap w) x = true →
  themeStyleCallback __dirname JSON_stringify x w = saveThemeStyle __dirname JSON_stringify x w.
Proof.
  intros Hx Htag. unfold themeStyleCallback.
  rewrite (bind_ok _ _ _ _ _ (modelName_entry w x Hx)).
  unfold has_tag in Htag. by rewrite Htag.
Qed.

Lemma transform_find w arg data lo objs :
  data_objects (heap w) arg data lo objs →
  transform __dirname JSON_stringify arg w
  = bind (find_loop (themeStyleCallback __dirname JSON_stringify) objs) (λ _, ret data) w.
Proof.
  intros (a & d & Ha & Hdata & Hd & Hobjects & Hlo). unfold transform.
  rewrite (bind_ok _ _ _ _ _ (get_record w arg a _ Ha)), Hdata. simpl.
  rewrite (bind_ok _ _ _ _ _ (get_record w data d _ Hd)), Hobjects. simpl.
  unfold Array_find, bind at 1. unfold bind at 1.
  by rewrite (array_elements_ok w lo objs Hlo).
Qed.

Lemma transform_first w arg data lo pre o post :
  data_objects (heap w) arg data lo (pre ++ o :: post) →
  Forall (ContentEntry (heap w)) pre →
  Forall (λ x, has_tag "ThemeStyle" (heap w) x = false) pre →
  ContentEntry (heap w) o →
  has_tag "ThemeStyle" (heap w) o = true →
  transform __dirname JSON_stringify arg w
  = match saveThemeStyle __dirname JSON_stringify o w with
    | (Ok _, w') => (Ok data, w')
    | (Throw e, w') => (Throw e, w')
    end.
Proof.
  intros Hdata Hpre Hother Ho Htheme.
  rewrite (transform_find _ _ _ _ _ Hdata). unfold bind at 1.
  rewrite find_loop_skip.
  - simpl. unfold bind at 1. rewrite (themeStyleCallback_theme w o Ho Htheme).
    destruct (saveThemeStyle __dirname JSON_stringify o w) as [[r|e] w'] eqn:Hsave; [|done].
    by rewrite (saveThemeStyle_value _ _ _ _ Hsave).
  - intros x Hx. exists VUndefined. split; [|done].
    apply themeStyleCallback_other.
    + by eapply Forall_forall in Hpre.
    + by eapply Forall_forall in Hother.
Qed.

Lemma transform_none w arg data lo objs :
  data_objects (heap w) arg data lo objs →
  Forall (ContentEntry (heap w)) objs →
  Forall (λ x, has_tag "ThemeStyle" (heap w) x = false) objs →
  transform __dirname JSON_stringify arg w = (Ok data, w).
Proof.
  intros Hdata Hobjs Hother.
  rewrite (transform_find _ _ _ _ _ Hdata). unfold bind at 1.
  rewrite <- (app_nil_r objs), find_loop_skip; [done|].
  intros x Hx. exists VUndefined. split; [|done].
  apply themeStyleCallback_other.
  + by eapply Forall_forall in Hobjs.
  + by eapply Forall_forall in Hother.
Qed.

End TransformSpec.

(** ** The options of [sourcebit-target-next] never look at the file system *)

Lemma fs_blind_ret {A} (a : A) : fs_blind (ret a).
Proof. intros h f f'. by exists (Ok a), h. Qed.

Lemma fs_blind_bind {A B} (m : M A) (k : A → M B) :
  fs_blind m → (∀ a, fs_blind (k a)) → fs_blind (bind m k).
Proof.
  intros Hm Hk h f f'. destruct (Hm h f f') as (r & h' & Hf & Hf').
  unfold bind. rewrite Hf, Hf'. destruct r as [a|e].
  - apply Hk.
  - by exists (Throw e), h'.
Qed.

Lemma fs_blind_reader {A} (g : list cell → result A) :
  fs_blind (λ w, (g (heap w), w)).
Proof. intros h f f'. by exists (g h), h. Qed.

Lemma fs_blind_get v k : fs_blind (get v k).
Proof.
  intros h f f'. unfold get. simpl.
  destruct v; try (by eexists _, _);
    destruct (length_prop h _); try destruct (String.eqb k "length"); by eexists _, _.
Qed.

Lemma fs_blind_alloc c : fs_blind (alloc c).
Proof. intros h f f'. by eexists _, _. Qed.

Lemma fs_blind_array_elements arr : fs_blind (array_elements arr).
Proof.
  intros h f f'. unfold array_elements. simpl.
  destruct arr as [| | | | |l]; try (by eexists _, _).
  destruct (h !! l) as [[o|vs]|]; by eexists _, _.
Qed.

Lemma fs_blind_find_loop cb vs :
  (∀ x, fs_blind (cb x)) → fs_blind (find_loop cb vs).
Proof.
  intros Hcb. induction vs as [|x vs IH]; simpl; [apply fs_blind_ret|].
  apply fs_blind_bind; [done|]. intros r. destruct (truthy r); [apply fs_blind_ret|done].
Qed.

Lemma fs_blind_filter_loop cb vs :
  (∀ x, fs_blind (cb x)) → fs_blind (filter_loop cb vs).
Proof.
  intros Hcb. induction vs as [|x vs IH]; simpl; [apply fs_blind_ret|].
  apply fs_blind_bind; [done|]. intros r.
  apply fs_blind_bind; [done|]. intros rest. apply fs_blind_ret.
Qed.

Lemma fs_blind_map_loop cb vs :
  (∀ x, fs_blind (cb x)) → fs_blind (map_loop cb vs).
Proof.
  intros Hcb. induction vs as [|x vs IH]; simpl; [apply fs_blind_ret|].
  apply fs_blind_bind; [done|]. intros r.
  apply fs_blind_bind; [done|]. intros rest. apply fs_blind_ret.
Qed.

Lemma fs_blind_modelName page : fs_blind (modelName page).
Proof. apply fs_blind_bind; [apply fs_blind_get|]. intros md. apply fs_blind_get. Qed.

Lemma fs_blind_commonProps objects : fs_blind (commonProps objects).
Proof.
  apply fs_blind_bind.
  - apply fs_blind_bind; [apply fs_blind_array_elements|]. intros vs.
    apply fs_blind_find_loop. intros x.
    apply fs_blind_bind; [apply fs_blind_modelName|]. intros mn. apply fs_blind_ret.
  - intros site. apply fs_blind_alloc.
Qed.

Lemma fs_blind_pageProps gp page : fs_blind (pageProps gp page).
Proof.
  apply fs_blind_bind; [apply fs_blind_get|]. intros md.
  apply fs_blind_bind.
  { intros h f f'. unfold rest_props. simpl. destruct page; by eexists _, _. }
  intros restProps.
  apply fs_blind_bind; [apply (fs_blind_reader (λ h, Ok (gp h page)))|]. intros urlPath.
  apply fs_blind_bind; [apply (fs_blind_reader (λ h, Ok (own_props h md)))|]. intros props.
  apply fs_blind_bind; [apply fs_blind_alloc|]. intros classes.
  apply fs_blind_bind; [apply fs_blind_alloc|]. intros metadata.
  apply fs_blind_alloc.
Qed.

Lemma fs_blind_pages gp objects : fs_blind (pages gp objects).
Proof.
  apply fs_blind_bind.
  - apply fs_blind_bind; [apply fs_blind_array_elements|]. intros vs.
    apply fs_blind_filter_loop. intros x.
    apply fs_blind_bind; [apply fs_blind_modelName|]. intros mn. apply fs_blind_ret.
  - intros pageObjects.
    apply fs_blind_bind; [apply fs_blind_map_loop, fs_blind_pageProps|].
    intros ps. apply fs_blind_alloc.
Qed.

Lemma fs_blind_targetNext gp objects : fs_blind (targetNext gp objects).
Proof.
  apply fs_blind_bind; [apply fs_blind_commonProps|]. intros props.
  apply fs_blind_bind; [apply fs_blind_pages|]. intros pgs. apply fs_blind_ret.
Qed.

(** C10. Among several [ThemeStyle] entries, [transform] saves the first
    one in input order: [style.json] receives the serialization of that
    entry, whatever follows it in the collection.  When the collection has
    no [ThemeStyle] entry the file system is left as it was. *)
Theorem transform_saves_first_ThemeStyle __dirname JSON_stringify w arg data lo objs :
  data_objects (heap w) arg data lo objs →
  (∀ pre o post json,
      objs = pre ++ o :: post →
      Forall (ContentEntry (heap w)) pre →
      Forall (λ x, has_tag "ThemeStyle" (heap w) x = false) pre →
      ContentEntry (heap w) o →
      has_tag "ThemeStyle" (heap w) o = true →
      JSON_stringify (heap w) o 4 = Ok json →
      can_save __dirname (fs w) = true →
      ∃ f',
        transform __dirname JSON_stringify arg w = (Ok data, World (heap w) f')
        ∧ files f' = <[stylePath __dirname := json]> (files (fs w)))
  ∧ (Forall (ContentEntry (heap w)) objs →
     Forall (λ x, has_tag "ThemeStyle" (heap w) x = false) objs →
     transform __dirname JSON_stringify arg w = (Ok data, w)).
Proof.
  intros Hdata. split.
  - intros pre o post json -> Hpre Hother Ho Htheme Hjson Hsave.
    exists (saved __dirname json (fs w)). split; [|done].
    rewrite (transform_first _ _ _ _ _ _ _ _ _ Hdata Hpre Hother Ho Htheme).
    by rewrite (saveThemeStyle_ok _ _ _ _ _ Hsave Hjson).
  - intros Hobjs Hother. by eapply transform_none.
Qed.

Lemma transform_saves_first_ThemeStyle_witness :
  ∃ f',
    transform siteDir compactJson (VRef 0) themeWorld = (Ok (VRef 1), World themeHeap f')
    ∧ files f'
      = <[stylePath siteDir := "{__metadata:{modelName:ThemeStyle},primaryColor:blue}"]> ∅.
Proof.
  refine (proj1 (transform_saves_first_ThemeStyle siteDir compactJson themeWorld
                   (VRef 0) (VRef 1) 2 [VRef 4; VRef 6; VRef 8] _)
            [VRef 4] (VRef 6) [VRef 8] _ _ _ _ _ _ _ _).
  - exists {[ "data" := VRef 1 ]}, {[ "objects" := VRef 2 ]}.
    repeat split; by vm_compute.
  - reflexivity.
  - by_evaluation.
  - by_evaluation.
  - by_evaluation.
  - by vm_compute.
  - by vm_compute.
  - by vm_compute.
Defined.

(** C8. [transform] returns the very [data] it was given and leaves the
    heap, and with it that object and all its entries, unchanged.  Its only
    effect is on the file system, where no file other than
    [content/data/style.json] under the directory of [sourcebit.js] changes:
    when the collection has a [ThemeStyle] entry and the file can be
    written, that file holds the serialization of the entry; without a
    [ThemeStyle] entry nothing is written.  The props and pages computed
    after the middleware are those computed without it. *)
Theorem transform_returns_data __dirname JSON_stringify w arg data lo objs :
  data_objects (heap w) arg data lo objs →
  Forall (ContentEntry (heap w)) objs →
  ∃ r w',
    transform __dirname JSON_stringify arg w = (r, w')
    ∧ heap w' = heap w
    ∧ (∀ p, p ≠ stylePath __dirname → files (fs w') !! p = files (fs w) !! p)
    ∧ (∀ v, r = Ok v → v = data)
    ∧ (∀ o json,
         List.find (has_tag "ThemeStyle" (heap w)) objs = Some o →
         JSON_stringify (heap w) o 4 = Ok json →
         can_save __dirname (fs w) = true →
         r = Ok data ∧ files (fs w') !! stylePath __dirname = Some json)
    ∧ (List.find (has_tag "ThemeStyle" (heap w)) objs = None →
       r = Ok data ∧ w' = w)
    ∧ (∀ gp objects, ∃ out h',
         targetNext gp objects w = (out, World h' (fs w))
         ∧ targetNext gp objects w' = (out, World h' (fs w'))).
Proof.
  intros Hdata Hobjs.
  cut (∃ r w',
    transform __dirname JSON_stringify arg w = (r, w')
    ∧ heap w' = heap w
    ∧ (∀ p, p ≠ stylePath __dirname → files (fs w') !! p = files (fs w) !! p)
    ∧ (∀ v, r = Ok v → v = data)
    ∧ (∀ o json,
         List.find (has_tag "ThemeStyle" (heap w)) objs = Some o →
         JSON_stringify (heap w) o 4 = Ok json →
         can_save __dirname (fs w) = true →
         r = Ok data ∧ files (fs w') !! stylePath __dirname = Some json)
    ∧ (List.find (has_tag "ThemeStyle" (heap w)) objs = None →
       r = Ok data ∧ w' = w)).
  { intros (r & w' & Hrun & Hheap & Hrest). exists r, w'.
    split; [done|]. split; [done|].
    destruct Hrest as (H1 & H2 & H3 & H4). repeat (split; [done|]).
    intros gp objects. destruct w as [h f], w' as [h0 f0]. simpl in Hheap. subst h0.
    apply fs_blind_targetNext. }
  destruct (List.find (has_tag "ThemeStyle" (heap w)) objs) as [o|] eqn:Hfind.
  - destruct (find_split _ _ _ Hfind) as (pre & post & -> & Hother & Htheme).
    apply Forall_app in Hobjs as [Hpre [Ho _]%Forall_cons].
    pose proof (transform_first __dirname JSON_stringify _ _ _ _ _ _ _
                  Hdata Hpre Hother Ho Htheme) as Hrun.
    destruct (saveThemeStyle __dirname JSON_stringify o w) as [r0 w0] eqn:Hsave.
    destruct (saveThemeStyle_frame _ _ _ _ _ _ Hsave) as [Hheap Hfiles].
    exists (match r0 with Ok _ => Ok data | Throw e => Throw e end), w0.
    split; [by destruct r0|]. split; [done|]. split; [done|].
    split; [|split; [|done]].
    + intros v. destruct r0; [by intros [= <-]|done].
    + intros o' json [= <-] Hjson Hcan.
      rewrite (saveThemeStyle_ok _ _ _ _ _ Hcan Hjson) in Hsave.
      injection Hsave as <- <-. split; [done|]. simpl. apply lookup_insert_eq.
  - exists (Ok data), w. split.
    + eapply transform_none; [done|done|].
      clear Hdata Hobjs. induction objs as [|x objs IH]; [constructor|].
      simpl in Hfind. destruct (has_tag "ThemeStyle" (heap w) x) eqn:Hx; [done|].
      constructor; [done|by apply IH].
    + repeat split; try done. by intros v [= <-].
Qed.

Lemma transform_returns_data_witness :
  ∃ r w',
    transform siteDir compactJson (VRef 0) themeWorld = (r, w')
    ∧ heap w' = themeHeap
    ∧ (∀ p, p ≠ stylePath siteDir → files (fs w') !! p = None)
    ∧ r = Ok (VRef 1)
    ∧ files (fs w') !! stylePath siteDir
      = Some "{__metadata:{modelName:ThemeStyle},primaryColor:blue}".
Proof.
  destruct (transform_returns_data siteDir compactJson themeWorld
              (VRef 0) (VRef 1) 2 [VRef 4; VRef 6; VRef 8])
    as (r & w' & Hrun & Hheap & Hfiles & _ & Hsaved & _).
  - exists {[ "data" := VRef 1 ]}, {[ "objects" := VRef 2 ]}.
    repeat split; by vm_compute.
  - by_evaluation.
  - destruct (Hsaved (VRef 6) "{__metadata:{modelName:ThemeStyle},primaryColor:blue}")
      as [Hr Hjson]; [by vm_compute..|].
    exists r, w'. repeat split; try done.
Defined.

(** ** Class tokens *)

Lemma split_not_nil sep s : split sep s ≠ [].
Proof.
  destruct s as [|c s]; simpl; [done|].
  destruct (Ascii.eqb c sep); [done|]. by destruct (split sep s).
Qed.

Lemma concat_split sep s : String.concat (String sep EmptyString) (split sep s) = s.
Proof.
  induction s as [|c s IH]; simpl; [done|].
  destruct (Ascii.eqb_spec c sep) as [->|Hc].
  - pose proof (split_not_nil sep s) as Hne.
    destruct (split sep s) as [|seg segs] eqn:E; [done|].
    change (String.concat (String sep "") ("" :: seg :: segs))
      with (String sep (String.concat (String sep "") (seg :: segs))).
    by rewrite IH.
  - pose proof (split_not_nil sep s) as Hne.
    destruct (split sep s) as [|seg segs] eqn:E; [done|].
    destruct segs as [|seg' segs]; simpl in *; by rewrite <- IH.
Qed.

Lemma split_no_separator sep s :
  Forall (λ seg, ¬ In sep (list_ascii_of_string seg)) (split sep s).
Proof.
  induction s as [|c s IH]; simpl; [constructor; [by intros []|constructor]|].
  destruct (Ascii.eqb_spec c sep) as [->|Hc].
  - constructor; [by intros []|done].
  - destruct (split sep s) as [|seg segs];
      [constructor; [by intros [|[]]|constructor]|].
    apply Forall_cons in IH as [Hseg Hsegs]. constructor; [|done].
    simpl. by intros [|].
Qed.

Lemma sanitize_chars seg :
  list_ascii_of_string (sanitize seg) = sanitize_char <$> list_ascii_of_string seg.
Proof.
  induction seg as [|c seg IH]; [done|].
  cbn [sanitize map_chars list_ascii_of_string]. rewrite fmap_cons. f_equal. exact IH.
Qed.

Lemma sanitize_char_token c : token_char (sanitize_char c) = true.
Proof. by destruct c as [[] [] [] [] [] [] [] []]. Qed.

Lemma pageCssClasses_not_nil urlPath : pageCssClasses urlPath ≠ [].
Proof.
  unfold pageCssClasses. by destruct (List.filter nonempty (split "/" urlPath)).
Qed.

(** The class array of a page record is never empty, whatever URL the page
    was given. *)
Lemma enriched_classes_not_nil h h' src out :
  enriched h h' src out →
  ∃ md' lc tokens,
    metadata_of h' out = Some md'
    ∧ md' !! "pageCssClasses" = Some (VRef lc)
    ∧ h' !! lc = Some (Arr (VStr <$> tokens))
    ∧ tokens ≠ [].
Proof.
  intros (o & md & o' & md' & _ & _ & _ & Hmd' & _ & _ & u & lc & _ & Hc & Hlc).
  exists md', lc, (pageCssClasses u). repeat split; try done.
  apply pageCssClasses_not_nil.
Qed.

(** C2. [cssClassesFromUrlPath] splits the path on [/] (the segments,
    joined with [/], give the path back and none contains a [/]), discards
    the empty segments, and returns one token for each segment left: the
    segment with its letters in lower case and every character that is not
    a letter or a digit replaced with a dash.  When no segment is left it
    returns the single token [home].  So [/] gives [home] and
    [/blog/my-post] gives [blog], [my-post]. *)
Theorem cssClassesFromUrlPath_spec (urlPath : string) :
  let segments := List.filter nonempty (split "/" urlPath) in
  String.concat "/" (split "/" urlPath) = urlPath
  ∧ Forall (λ seg, ¬ In "/"%char (list_ascii_of_string seg)) (split "/" urlPath)
  ∧ (segments = [] → pageCssClasses urlPath = ["home"])
  ∧ (segments ≠ [] → pageCssClasses urlPath = sanitize <$> segments)
  ∧ (∀ seg, list_ascii_of_string (sanitize seg)
            = sanitize_char <$> list_ascii_of_string seg)
  ∧ (∀ c, sanitize_char c = (if alphanumeric c then lower c else "-"%char)
          ∧ token_char (sanitize_char c) = true)
  ∧ (∀ w, cssClassesFromUrlPath urlPath w
          = (Ok (VRef (length (heap w))),
             World (heap w ++ [Arr (VStr <$> pageCssClasses urlPath)]) (fs w)))
  ∧ pageCssClasses "/" = ["home"]
  ∧ pageCssClasses "/blog/my-post" = ["blog"; "my-post"]
  ∧ pageCssClasses "/Blog//My Post_1/" = ["blog"; "my-post-1"].
Proof.
  repeat split.
  - apply concat_split.
  - apply split_no_separator.
  - unfold pageCssClasses. by intros ->.
  - unfold pageCssClasses. by destruct (List.filter nonempty (split "/" urlPath)).
  - apply sanitize_chars.
  - apply sanitize_char_token.
Qed.

(** ** The end-to-end example *)

(** C5, as amended.  On the collection of a [Config] entry [c1] and a
    [PageLayout] entry [p1] with slug [/about], tags and ids in the
    metadata records, and with a [getPageUrl] that gives [/about] for [p1]:
    the props are [{ site }] with [site] the [Config] entry itself, and the
    pages are one record for [p1] that keeps [slug] and whose metadata
    record holds [modelName], [id], [urlPath: "/about"] and
    [pageCssClasses: ["about"]].  The derived fields are inside the
    metadata record, not beside [slug]. *)
Theorem end_to_end_example gp :
  (∀ k, gp (exampleHeap ++ k) (VRef 3) = "/about") →
  targetNext gp (VRef 4) exampleWorld
  = (Ok (VRef 5, VRef 9), World (exampleHeap ++ exampleOutput) emptyFS)
  ∧ reify 3 (exampleHeap ++ exampleOutput) (VRef 5)
    = JObj {[ "site" :=
                JObj {[ "__metadata" :=
                          JObj {[ "modelName" := JStr "Config"; "id" := JStr "c1" ]} ]} ]}
  ∧ reify 4 (exampleHeap ++ exampleOutput) (VRef 9)
    = JArr [ JObj {[ "__metadata" :=
                       JObj {[ "modelName" := JStr "PageLayout"; "id" := JStr "p1";
                               "urlPath" := JStr "/about";
                               "pageCssClasses" := JArr [JStr "about"] ]};
                     "slug" := JStr "/about" ]} ].
Proof.
  intros Hgp. split; [|split; by vm_compute].
  set (wa := World (exampleHeap ++ [Obj {[ "site" := VRef 1 ]}]) emptyFS).
  assert (commonProps (VRef 4) exampleWorld = (Ok (VRef 5), wa)) as Hprops
    by by vm_compute.
  assert (Array_filter isPage (VRef 4) wa = (Ok [VRef 3], wa)) as Hfilter
    by by vm_compute.
  pose proof (pageProps_entry gp wa (VRef 3)
                {[ "__metadata" := VRef 2; "slug" := VStr "/about" ]}
                {[ "modelName" := VStr "PageLayout"; "id" := VStr "p1" ]}
                eq_refl eq_refl) as Hpage.
  cbn [heap fs wa] in Hpage. rewrite (Hgp [Obj {[ "site" := VRef 1 ]}]) in Hpage.
  assert (pages gp (VRef 4) wa
          = (Ok (VRef 9), World (exampleHeap ++ exampleOutput) emptyFS)) as Hpages.
  { unfold pages. rewrite (bind_ok _ _ _ _ _ Hfilter). cbn [map_loop].
    unfold bind at 1. rewrite (bind_ok _ _ _ _ _ Hpage). by vm_compute. }
  unfold targetNext.
  by rewrite (bind_ok _ _ _ _ _ Hprops), (bind_ok _ _ _ _ _ Hpages).
Qed.

Lemma end_to_end_example_witness :
  targetNext slugUrl (VRef 4) exampleWorld
  = (Ok (VRef 5, VRef 9), World (exampleHeap ++ exampleOutput) emptyFS).
Proof.
  refine (proj1 (end_to_end_example slugUrl _)). intros k. reflexivity.
Defined.

(** C5, as stated, fails.  Written flat, as the specification prints
    them, the entries have no metadata record and the run throws.  With the
    tags in the metadata records the run succeeds, but the page record it
    returns has no [urlPath] and no [pageCssClasses] field of its own. *)
Lemma end_to_end_shape_differs :
  targetNext slugUrl (VRef 2) flatWorld = (Throw CannotRead, flatWorld)
  ∧ ∃ w' page,
      targetNext slugUrl (VRef 4) exampleWorld = (Ok (VRef 5, VRef 9), w')
      ∧ heap w' !! 9 = Some (Arr [page])
      ∧ own_props (heap w') page !! "slug" = Some (VStr "/about")
      ∧ own_props (heap w') page !! "urlPath" = None
      ∧ own_props (heap w') page !! "pageCssClasses" = None.
Proof.
  split; [by vm_compute|].
  exists (World (exampleHeap ++ exampleOutput) emptyFS), (VRef 8).
  repeat split; by vm_compute.
Qed.

(** * Further properties of [sourcebit.js] *)

(** ** Readers and the loops over them *)

Lemma get_world v k w r w' : get v k w = (r, w') → w' = w.
Proof.
  unfold get. destruct v; try (by intros [= _ <-]);
    destruct (length_prop (heap w) _); try destruct (String.eqb k "length");
    by intros [= _ <-].
Qed.



Lemma modelName_world page w r w' : modelName page w = (r, w') → w' = w.
Proof.
  unfold modelName, bind. destruct (get page "__metadata" w) as [[md|e] w1] eqn:H1.
  - apply get_world in H1 as ->. apply get_world.
  - apply get_world in H1 as ->. by intros [= _ <-].
Qed.



Lemma array_elements_inv arr w r w' :
  array_elements arr w = (r, w') →
  w' = w
  ∧ (∀ vs, r = Ok vs → ∃ lo, arr = VRef lo ∧ heap w !! lo = Some (Arr vs))
  ∧ (∀ e, r = Throw e → e = CannotRead ∨ e = NotAFunction).
Proof.
  unfold array_elements. intros H.
  assert (w' = w ∧ (r = Throw CannotRead ∨ r = Throw NotAFunction
                    ∨ ∃ lo vs, arr = VRef lo ∧ heap w !! lo = Some (Arr vs) ∧ r = Ok vs))
    as [-> Hr].
  { destruct arr as [| | | | |l]; try (injection H as <- <-; by auto).
    destruct (heap w !! l) as [[o|vs]|] eqn:Hl; injection H as <- <-; auto.
    split; [done|]. right. right. by exists l, vs. }
  split; [done|].
  destruct Hr as [->|[->|(lo & vs & -> & Hlo & ->)]]; split; try done.
  - intros e [= <-]. by left.
  - intros e [= <-]. by right.
  - intros vs' [= <-]. eauto.
Qed.

Lemma find_loop_reader cb vs :
  (∀ x w r w', cb x w = (r, w') → w' = w) →
  ∀ w r w', find_loop cb vs w = (r, w') →
    w' = w ∧ (∀ v, r = Ok v → v = VUndefined ∨ v ∈ vs)
    ∧ (∀ e, r = Throw e → ∃ x, x ∈ vs ∧ cb x w = (Throw e, w)).
Proof.
  intros Hcb. induction vs as [|x vs IH]; intros w r w'; simpl.
  - intros [= <- <-]. repeat split; [intros v [= <-]; by left|done].
  - unfold bind. destruct (cb x w) as [[v|e] w1] eqn:Hx;
      pose proof (Hcb _ _ _ _ Hx) as ->.
    + destruct (truthy v).
      * intros [= <- <-]. repeat split; [|done].
        intros v' [= <-]. right. apply list_elem_of_here.
      * intros (-> & Hok & Hthrow)%IH. repeat split.
        -- intros v' [?|?]%Hok; [by left|right; by apply list_elem_of_further].
        -- intros e (y & Hy & Hcy)%Hthrow. exists y.
           split; [by apply list_elem_of_further|done].
    + intros [= <- <-]. repeat split; [done|].
      intros e' [= <-]. exists x. split; [apply list_elem_of_here|done].
Qed.

Lemma find_loop_hit cb pre x post r w w' :
  (∀ y, y ∈ pre → ∃ r, cb y w = (Ok r, w) ∧ truthy r = false) →
  cb x w = (Ok r, w') → truthy r = true →
  find_loop cb (pre ++ x :: post) w = (Ok x, w').
Proof.
  intros Hpre Hx Hr. rewrite find_loop_skip by done. simpl.
  by rewrite (bind_ok _ _ _ _ _ Hx), Hr.
Qed.

Lemma find_loop_throw cb pre x post e w w' :
  (∀ y, y ∈ pre → ∃ r, cb y w = (Ok r, w) ∧ truthy r = false) →
  cb x w = (Throw e, w') →
  find_loop cb (pre ++ x :: post) w = (Throw e, w').
Proof.
  intros Hpre Hx. rewrite find_loop_skip by done. simpl.
  by rewrite (bind_throw _ _ _ _ _ Hx).
Qed.

Lemma isConfig_skips w pre :
  Forall (ContentEntry (heap w)) pre →
  Forall (λ y, has_tag "Config" (heap w) y = false) pre →
  ∀ y, y ∈ pre → ∃ r, isConfig y w = (Ok r, w) ∧ truthy r = false.
Proof.
  intros Hpre Hother y Hy. exists (VBool false). split; [|done].
  rewrite isConfig_entry by by eapply Forall_forall in Hpre.
  by rewrite (proj1 (Forall_forall _ _) Hother y Hy).
Qed.

(** ** [commonProps] beyond well-formed collections *)

(** X1. [find] stops at the first [Config] entry: whatever follows it in
    the collection, entries without a metadata record and holes included,
    is never inspected, and [commonProps] returns [{ site }] for that
    entry. *)
Theorem commonProps_stops_at_first_config w lo pre c post :
  heap w !! lo = Some (Arr (pre ++ c :: post)) →
  Forall (ContentEntry (heap w)) pre →
  Forall (λ y, has_tag "Config" (heap w) y = false) pre →
  ContentEntry (heap w) c →
  has_tag "Config" (heap w) c = true →
  commonProps (VRef lo) w
  = (Ok (VRef (length (heap w))), World (heap w ++ [Obj {[ "site" := c ]}]) (fs w)).
Proof.
  intros Hlo Hpre Hother Hc Htag. unfold commonProps, Array_find.
  assert (bind (array_elements (VRef lo)) (λ vs, find_loop isConfig vs) w = (Ok c, w)) as Hfind.
  { rewrite (bind_ok _ _ _ _ _ (array_elements_ok w lo _ Hlo)).
    apply (find_loop_hit isConfig pre c post (VBool true)).
    - by apply isConfig_skips.
    - rewrite isConfig_entry by done. by rewrite Htag.
    - done. }
  by rewrite (bind_ok _ _ _ _ _ Hfind).
Qed.

Lemma commonProps_stops_at_first_config_witness :
  commonProps (VRef 3) configFirstWorld
  = (Ok (VRef 4), World (configFirstHeap ++ [Obj {[ "site" := VRef 1 ]}]) emptyFS)
  ∧ pages slugUrl (VRef 3) configFirstWorld = (Throw CannotRead, configFirstWorld).
Proof.
  split; [|by vm_compute].
  apply (commonProps_stops_at_first_config configFirstWorld 3 [] (VRef 1)
           [VRef 2; VUndefined]).
  - reflexivity.
  - constructor.
  - constructor.
  - by_evaluation.
  - by vm_compute.
Defined.

(** X2. An entry without a metadata record that comes before any [Config]
    entry makes [commonProps] throw a [TypeError]; nothing is allocated and
    the world is left as it was. *)
Theorem commonProps_malformed_before_config w lo pre x post :
  heap w !! lo = Some (Arr (pre ++ x :: post)) →
  Forall (ContentEntry (heap w)) pre →
  Forall (λ y, has_tag "Config" (heap w) y = false) pre →
  lacks_metadata (heap w) x →
  commonProps (VRef lo) w = (Throw CannotRead, w).
Proof.
  intros Hlo Hpre Hother Hx. unfold commonProps, Array_find.
  apply bind_throw. rewrite (bind_ok _ _ _ _ _ (array_elements_ok w lo _ Hlo)).
  apply find_loop_throw; [by apply isConfig_skips|].
  unfold isConfig. apply bind_throw. by apply modelName_lacks.
Qed.

Lemma commonProps_malformed_before_config_witness :
  commonProps (VRef 3) brokenWorld = (Throw CannotRead, brokenWorld).
Proof.
  apply (commonProps_malformed_before_config brokenWorld 3 [] (VRef 0) [VRef 2]).
  - reflexivity.
  - constructor.
  - constructor.
  - exists {[ "slug" := VStr "/broken" ]}. split; [reflexivity|]. left. by vm_compute.
Defined.

Lemma isConfig_world x w r w' : isConfig x w = (r, w') → w' = w.
Proof.
  unfold isConfig, bind. destruct (modelName x w) as [[mn|e] w1] eqn:H.
  - apply modelName_world in H as ->. by intros [= _ <-].
  - apply modelName_world in H as ->. by intros [= _ <-].
Qed.

(** X3. Whatever it is called with, [commonProps] either throws and leaves
    the world as it was, or allocates exactly one object, [{ site }], whose
    [site] is [undefined] or one of the elements of the array it was given:
    an entry itself, never a copy. *)
Theorem commonProps_outcomes objects w r w' :
  commonProps objects w = (r, w') →
  (∃ e, r = Throw e ∧ w' = w)
  ∨ (∃ site,
       r = Ok (VRef (length (heap w)))
       ∧ w' = World (heap w ++ [Obj {[ "site" := site ]}]) (fs w)
       ∧ (site = VUndefined
          ∨ ∃ lo vs, objects = VRef lo ∧ heap w !! lo = Some (Arr vs) ∧ site ∈ vs)).
Proof.
  unfold commonProps, Array_find, bind.
  destruct (array_elements objects w) as [[vs|e] w1] eqn:Harr;
    destruct (array_elements_inv _ _ _ _ Harr) as (-> & Hvs & _).
  - destruct (Hvs vs eq_refl) as (lo & -> & Hlo).
    destruct (find_loop isConfig vs w) as [[site|e] w2] eqn:Hfind;
      destruct (find_loop_reader isConfig vs isConfig_world _ _ _ Hfind) as (-> & Hsite & _).
    + intros [= <- <-]. right. exists site. repeat split.
      destruct (Hsite site eq_refl) as [->|Hin]; [by left|right; eauto].
    + intros [= <- <-]. left. eauto.
  - intros [= <- <-]. left. eauto.
Qed.

Lemma commonProps_outcomes_witness :
  ∃ site,
    site = VUndefined
    ∨ ∃ lo vs, VRef 4 = VRef lo ∧ exampleHeap !! lo = Some (Arr vs) ∧ site ∈ vs.
Proof.
  destruct (commonProps_outcomes (VRef 4) exampleWorld (Ok (VRef 5))
              (World (exampleHeap ++ [Obj {[ "site" := VRef 1 ]}]) emptyFS))
    as [(e & He & _)|(site & _ & _ & Hsite)].
  - by vm_compute.
  - discriminate He.
  - by exists site.
Defined.

(** ** [pages] beyond well-formed collections *)

Lemma isPage_world x w r w' : isPage x w = (r, w') → w' = w.
Proof.
  unfold isPage, bind. destruct (modelName x w) as [[mn|e] w1] eqn:H.
  - apply modelName_world in H as ->. by intros [= _ <-].
  - apply modelName_world in H as ->. by intros [= _ <-].
Qed.








Lemma filter_none {A} (f : A → bool) (l : list A) :
  Forall (λ x, f x = false) l → List.filter f l = [].
Proof. induction 1 as [|x l Hx _ IH]; simpl; [done|]. by rewrite Hx. Qed.

(** X5. On a collection of content entries none of which is tagged with a
    page model, so also on the empty collection, [pages] returns a new
    empty array; [getPageUrl] plays no part in the result. *)
Theorem pages_without_page_entries gp w lo objs :
  heap w !! lo = Some (Arr objs) →
  Forall (ContentEntry (heap w)) objs →
  Forall (λ x, is_page (heap w) x = false) objs →
  pages gp (VRef lo) w
  = (Ok (VRef (length (heap w))), World (heap w ++ [Arr []]) (fs w)).
Proof.
  intros Hlo Hobjs Hnone. unfold pages.
  assert (Array_filter isPage (VRef lo) w = (Ok [], w)) as Hfilter.
  { unfold Array_filter.
    rewrite (bind_ok _ _ _ _ _ (array_elements_ok w lo objs Hlo)).
    rewrite (filter_loop_read isPage (λ x, VBool (is_page (heap w) x))).
    - by rewrite (filter_none (λ x, truthy (VBool (is_page (heap w) x))) _ Hnone).
    - intros x Hx. apply isPage_entry. by eapply Forall_forall in Hobjs. }
  by rewrite (bind_ok _ _ _ _ _ Hfilter).
Qed.

Lemma pages_without_page_entries_witness :
  pages slugUrl (VRef 2) themeWorld
  = (Ok (VRef 9), World (themeHeap ++ [Arr []]) emptyFS).
Proof.
  apply (pages_without_page_entries slugUrl themeWorld 2 [VRef 4; VRef 6; VRef 8]).
  - reflexivity.
  - by_evaluation.
  - by_evaluation.
Defined.

Lemma fresh_page_mono n n' h' k out :
  (n' ≤ n)%nat → fresh_page n h' out → fresh_page n' (h' ++ k) out.
Proof.
  intros Hn (lp & lm & o' & -> & Hlp & Hp & Hm & Hlm & [md Hmd]).
  exists lp, lm, o'. repeat split; try done; try lia.
  - by apply lookup_app_l_Some.
  - exists md. by apply record_of_app.
Qed.

Lemma map_loop_pageProps_fresh gp h0 ps :
  Forall (ContentEntry h0) ps →
  ∀ w k0, heap w = h0 ++ k0 →
    ∃ rs k, map_loop (pageProps gp) ps w = (Ok rs, World (heap w ++ k) (fs w))
            ∧ Forall (fresh_page (length (heap w)) (heap w ++ k)) rs
            ∧ NoDup rs.
Proof.
  induction 1 as [|page ps [md Hmd] Hps IH]; intros w k0 Hw.
  - exists [], []. rewrite app_nil_r. destruct w.
    split; [done|]. split; constructor.
  - destruct (metadata_of_inv _ _ _ Hmd) as (o & m & Ho & Hm & Hrec).
    pose proof (pageProps_entry gp w page o md) as Hpp.
    rewrite Hw in Hpp at 1 2.
    specialize (Hpp (record_of_app _ k0 _ _ Ho) (metadata_of_app _ k0 _ _ Hmd)).
    remember [Arr _; Obj _; Obj _] as cs eqn:Hcs in Hpp.
    destruct (IH (World (heap w ++ cs) (fs w)) (k0 ++ cs)) as (rs & k & Hrs & Hfresh & Hnodup).
    { simpl. rewrite Hw. symmetry. apply app_assoc. }
    simpl in Hrs, Hfresh.
    assert (length (heap w ++ cs) = length (heap w) + 3) as Hlen
      by (rewrite length_app; by subst cs).
    rewrite Hlen in Hfresh.
    exists (VRef (length (heap w) + 2) :: rs), (cs ++ k). split; [|split].
    + simpl. rewrite (bind_ok _ _ _ _ _ Hpp), (bind_ok _ _ _ _ _ Hrs).
      unfold ret. by rewrite <- app_assoc.
    + rewrite app_assoc. constructor.
      * apply (fresh_page_mono (length (heap w))); [lia|].
        eexists (length (heap w) + 2), (length (heap w) + 1), _.
        subst cs. split; [done|]. split; [lia|]. split.
        { rewrite lookup_app_r by lia.
          by replace (length (heap w) + 2 - length (heap w)) with 2 by lia. }
        split.
        { apply lookup_union_Some_raw. right.
          split; [apply lookup_delete_eq|apply lookup_singleton_eq]. }
        split; [lia|]. eexists. simpl. rewrite lookup_app_r by lia.
        by replace (length (heap w) + 1 - length (heap w)) with 1 by lia.
      * eapply Forall_impl; [exact Hfresh|]. intros r Hr.
        destruct Hr as (lp & lm & o' & -> & Hlp & Hp & Hm' & Hlm & Hmd').
        exists lp, lm, o'. repeat split; try done; lia.
    + constructor; [|done]. intros Hin.
      apply (proj1 (Forall_forall _ _) Hfresh) in Hin
        as (lp & lm & o' & [= <-] & Hlp & _). lia.
Qed.

(** X6. On a collection of content entries, every record [pages] returns
    is a cell the call allocated, and so is the metadata record it carries:
    [pages] never hands out an input entry or an input metadata record.
    The records are pairwise distinct, even when an entry occurs twice in
    the collection. *)
Theorem pages_records_are_new gp w lo objs :
  heap w !! lo = Some (Arr objs) →
  Forall (ContentEntry (heap w)) objs →
  ∃ lout ps new,
    pages gp (VRef lo) w = (Ok (VRef lout), World (heap w ++ new) (fs w))
    ∧ (heap w ++ new) !! lout = Some (Arr ps)
    ∧ (length (heap w) ≤ lout)%nat
    ∧ Forall (fresh_page (length (heap w)) (heap w ++ new)) ps
    ∧ NoDup ps.
Proof.
  intros Hlo Hobjs.
  assert (Array_filter isPage (VRef lo) w
          = (Ok (List.filter (is_page (heap w)) objs), w)) as Hfilter.
  { unfold Array_filter.
    rewrite (bind_ok _ _ _ _ _ (array_elements_ok w lo objs Hlo)).
    apply (filter_loop_read isPage (λ x, VBool (is_page (heap w) x))).
    intros x Hx. apply isPage_entry. by eapply Forall_forall in Hobjs. }
  destruct (map_loop_pageProps_fresh gp (heap w) (List.filter (is_page (heap w)) objs)
              (filter_sub _ _ _ Hobjs) w [] (eq_sym (app_nil_r _)))
    as (rs & k & Hmap & Hfresh & Hnodup).
  exists (length (heap w ++ k)), rs, (k ++ [Arr rs]). split; [|split; [|split; [|split]]].
  - unfold pages.
    rewrite (bind_ok _ _ _ _ _ Hfilter), (bind_ok _ _ _ _ _ Hmap).
    unfold new_array, alloc. simpl. by rewrite <- app_assoc.
  - rewrite app_assoc. by rewrite lookup_app_r, Nat.sub_diag by lia.
  - rewrite length_app. lia.
  - rewrite app_assoc. eapply Forall_impl; [exact Hfresh|].
    intros r. by apply fresh_page_mono.
  - done.
Qed.

Lemma pages_records_are_new_witness :
  ∃ lout ps new,
    pages slugUrl (VRef 4) exampleWorld
    = (Ok (VRef lout), World (exampleHeap ++ new) emptyFS)
    ∧ (exampleHeap ++ new) !! lout = Some (Arr ps)
    ∧ (5 ≤ lout)%nat
    ∧ Forall (fresh_page 5 (exampleHeap ++ new)) ps
    ∧ NoDup ps.
Proof.
  apply (pages_records_are_new slugUrl exampleWorld 4 [VRef 1; VRef 3]).
  - reflexivity.
  - by_evaluation.
Defined.

(** ** Computations that only allocate *)

Lemma allocates_only_ret {A} (a : A) : allocates_only (ret a).
Proof. intros w r w' [= <- <-]. split; [done|]. exists []. by rewrite app_nil_r. Qed.

Lemma allocates_only_still {A} (m : M A) :
  (∀ w r w', m w = (r, w') → w' = w) → allocates_only m.
Proof.
  intros Hm w r w' ->%Hm. split; [done|]. exists []. by rewrite app_nil_r.
Qed.

Lemma allocates_only_bind {A B} (m : M A) (k : A → M B) :
  allocates_only m → (∀ a, allocates_only (k a)) → allocates_only (bind m k).
Proof.
  intros Hm Hk w r w'. unfold bind.
  destruct (m w) as [[a|e] w1] eqn:H1; destruct (Hm _ _ _ H1) as (Hfs & new & Hheap).
  - intros (Hfs' & new' & Hheap')%Hk. split; [congruence|].
    exists (new ++ new'). by rewrite Hheap', Hheap, app_assoc.
  - intros [= <- <-]. eauto.
Qed.

Lemma allocates_only_alloc c : allocates_only (alloc c).
Proof. intros w r w' [= <- <-]. simpl. eauto. Qed.

Lemma allocates_only_find_loop cb vs :
  (∀ x, allocates_only (cb x)) → allocates_only (find_loop cb vs).
Proof.
  intros Hcb. induction vs as [|x vs IH]; simpl; [apply allocates_only_ret|].
  apply allocates_only_bind; [done|]. intros r.
  destruct (truthy r); [apply allocates_only_ret|done].
Qed.

Lemma allocates_only_filter_loop cb vs :
  (∀ x, allocates_only (cb x)) → allocates_only (filter_loop cb vs).
Proof.
  intros Hcb. induction vs as [|x vs IH]; simpl; [apply allocates_only_ret|].
  apply allocates_only_bind; [done|]. intros r.
  apply allocates_only_bind; [done|]. intros rest. apply allocates_only_ret.
Qed.

Lemma allocates_only_map_loop cb vs :
  (∀ x, allocates_only (cb x)) → allocates_only (map_loop cb vs).
Proof.
  intros Hcb. induction vs as [|x vs IH]; simpl; [apply allocates_only_ret|].
  apply allocates_only_bind; [done|]. intros r.
  apply allocates_only_bind; [done|]. intros rest. apply allocates_only_ret.
Qed.

Lemma allocates_only_array_elements arr : allocates_only (array_elements arr).
Proof.
  apply allocates_only_still. intros w r w' H. by apply array_elements_inv in H as [-> _].
Qed.

Lemma allocates_only_commonProps objects : allocates_only (commonProps objects).
Proof.
  apply allocates_only_bind.
  - apply allocates_only_bind; [apply allocates_only_array_elements|]. intros vs.
    apply allocates_only_find_loop. intros x.
    apply allocates_only_still, isConfig_world.
  - intros site. apply allocates_only_alloc.
Qed.

Lemma allocates_only_pageProps gp page : allocates_only (pageProps gp page).
Proof.
  apply allocates_only_bind; [apply allocates_only_still, get_world|]. intros md.
  apply allocates_only_bind.
  { apply allocates_only_still. intros w r w'. unfold rest_props.
    destruct page; by intros [= _ <-]. }
  intros restProps.
  apply allocates_only_bind.
  { apply allocates_only_still. by intros w r w' [= _ <-]. }
  intros urlPath.
  apply allocates_only_bind.
  { apply allocates_only_still. by intros w r w' [= _ <-]. }
  intros props.
  apply allocates_only_bind; [apply allocates_only_alloc|]. intros classes.
  apply allocates_only_bind; [apply allocates_only_alloc|]. intros metadata.
  apply allocates_only_alloc.
Qed.

Lemma allocates_only_pages gp objects : allocates_only (pages gp objects).
Proof.
  apply allocates_only_bind.
  - apply allocates_only_bind; [apply allocates_only_array_elements|]. intros vs.
    apply allocates_only_filter_loop. intros x.
    apply allocates_only_still, isPage_world.
  - intros pageObjects.
    apply allocates_only_bind; [apply allocates_only_map_loop, allocates_only_pageProps|].
    intros ps. apply allocates_only_alloc.
Qed.

(** X7. Whatever they are called with and whatever the outcome, the two
    options of [sourcebit-target-next] never write to a cell that exists
    and never touch the file system: the heap they leave is the heap they
    were given followed by the cells they allocated. *)
Theorem targetNext_only_allocates gp objects w r w' :
  targetNext gp objects w = (r, w') →
  fs w' = fs w
  ∧ ∃ new, heap w' = heap w ++ new
           ∧ ∀ l c, heap w !! l = Some c → heap w' !! l = Some c.
Proof.
  intros Hrun.
  assert (allocates_only (targetNext gp objects)) as Halloc.
  { apply allocates_only_bind; [apply allocates_only_commonProps|]. intros props.
    apply allocates_only_bind; [apply allocates_only_pages|]. intros pgs.
    apply allocates_only_ret. }
  destruct (Halloc _ _ _ Hrun) as (Hfs & new & Hheap).
  split; [done|]. exists new. split; [done|].
  intros l c Hl. rewrite Hheap. by apply lookup_app_l_Some.
Qed.

Lemma targetNext_only_allocates_witness :
  ∃ new, configFirstHeap ++ [Obj {[ "site" := VRef 1 ]}] = configFirstHeap ++ new.
Proof.
  destruct (targetNext_only_allocates slugUrl (VRef 3) configFirstWorld
              (Throw CannotRead)
              (World (configFirstHeap ++ [Obj {[ "site" := VRef 1 ]}]) emptyFS))
    as (_ & new & Hheap & _).
  - by vm_compute.
  - by exists new.
Defined.

(** ** [transform] beyond well-formed collections *)

Section TransformAny.

Variable __dirname : path.
Variable JSON_stringify : list cell → value → nat → result string.

Local Abbreviation dirname := (path_join __dirname ["content"; "data"]).

(** What one run of [saveThemeStyle] can do to the world. *)
Lemma saveThemeStyle_outcome object w r w' :
  saveThemeStyle __dirname JSON_stringify object w = (r, w') →
  heap w' = heap w
  ∧ denied (fs w') = denied (fs w)
  ∧ (dirs (fs w') = dirs (fs w) ∨ dirs (fs w') = dirs_ensured __dirname (fs w))
  ∧ (∀ p, p ≠ stylePath __dirname → files (fs w') !! p = files (fs w) !! p)
  ∧ (∀ e, r = Throw e → files (fs w') = files (fs w)).
Proof.
  destruct w as [h f]. unfold saveThemeStyle, bind, existsSync, mkdirSync,
    stringify, writeFileSync, ret, dirs_ensured. simpl.
  change (path_join (path_join __dirname ["content"; "data"]) ["style.json"])
    with (stylePath __dirname).
  destruct (is_dir f dirname || is_file f dirname) eqn:Hfound; simpl;
    repeat (match goal with
            | |- context [if ?b then _ else _] => destruct b
            | |- context [match ?x with Ok _ => _ | Throw _ => _ end] => destruct x
            end; simpl);
    intros [= <- <-]; simpl; repeat split; auto; try done;
    intros p Hp; by rewrite lookup_insert_ne.
Qed.

(** The loop of [transform] runs [saveThemeStyle] at most once, on an
    element of the collection, and stops there. *)
Lemma find_theme_cases vs w r w' :
  find_loop (themeStyleCallback __dirname JSON_stringify) vs w = (r, w') →
  (w' = w ∧ (r = Ok VUndefined ∨ ∃ e, r = Throw e))
  ∨ (∃ x rs, x ∈ vs
       ∧ saveThemeStyle __dirname JSON_stringify x w = (rs, w')
       ∧ ((rs = Ok (VBool true) ∧ r = Ok x) ∨ ∃ e, rs = Throw e ∧ r = Throw e)).
Proof.
  induction vs as [|x vs IH]; simpl.
  - intros [= <- <-]. left. auto.
  - unfold bind at 1. unfold themeStyleCallback at 1. unfold bind at 1.
    destruct (modelName x w) as [[mn|e] w1] eqn:Hmn;
      pose proof (modelName_world _ _ _ _ Hmn) as ->.
    + destruct (strict_eq mn (VStr "ThemeStyle")).
      * destruct (saveThemeStyle __dirname JSON_stringify x w) as [[v|e] w1] eqn:Hsave.
        -- pose proof (saveThemeStyle_value _ _ _ _ _ _ Hsave) as ->. simpl.
           intros [= <- <-]. right. exists x, (Ok (VBool true)).
           split; [apply list_elem_of_here|]. auto.
        -- intros [= <- <-]. right. exists x, (Throw e).
           split; [apply list_elem_of_here|]. split; [done|]. right. eauto.
      * simpl. intros [H|(y & rs & Hy & Hsave & Hr)]%IH; [by left|].
        right. exists y, rs. split; [by apply list_elem_of_further|done].
    + intros [= <- <-]. left. eauto.
Qed.

Lemma transform_cases arg w r w' :
  transform __dirname JSON_stringify arg w = (r, w') →
  (w' = w ∧ ((∃ e, r = Throw e)
             ∨ ∃ data, get arg "data" w = (Ok data, w) ∧ r = Ok data))
  ∨ (∃ x rs,
       saveThemeStyle __dirname JSON_stringify x w = (rs, w')
       ∧ ((rs = Ok (VBool true)
           ∧ ∃ data, get arg "data" w = (Ok data, w) ∧ r = Ok data)
          ∨ ∃ e, rs = Throw e ∧ r = Throw e)).
Proof.
  unfold transform. unfold bind at 1.
  destruct (get arg "data" w) as [[data|e] w1] eqn:Hdata;
    pose proof (get_world _ _ _ _ _ Hdata) as ->; [|intros [= <- <-]; left; eauto].
  unfold bind at 1.
  destruct (get data "objects" w) as [[objects|e] w1] eqn:Hobjects;
    pose proof (get_world _ _ _ _ _ Hobjects) as ->; [|intros [= <- <-]; left; eauto].
  unfold bind at 1. unfold Array_find, bind at 1.
  destruct (array_elements objects w) as [[vs|e] w1] eqn:Harr;
    destruct (array_elements_inv _ _ _ _ Harr) as (-> & _ & _);
    [|intros [= <- <-]; left; eauto].
  destruct (find_loop (themeStyleCallback __dirname JSON_stringify) vs w)
    as [r1 w1] eqn:Hfind.
  destruct (find_theme_cases _ _ _ _ Hfind)
    as [(-> & [->|(e & ->)])|(x & rs & _ & Hsave & [(-> & ->)|(e & -> & ->)])].
  - intros [= <- <-]. left. split; [done|]. right. by exists data.
  - intros [= <- <-]. left. split; [done|]. left. by exists e.
  - intros [= <- <-]. right. exists x, (Ok (VBool true)).
    split; [done|]. left. split; [done|]. by exists data.
  - intros [= <- <-]. right. exists x, (Throw e).
    split; [done|]. right. by exists e.
Qed.

End TransformAny.

Section TransformSteps.

Variable __dirname : path.
Variable JSON_stringify : list cell → value → nat → result string.

Local Abbreviation dirname := (path_join __dirname ["content"; "data"]).

Lemma saved_is_dir json f :
  can_save __dirname f = true → is_dir (saved __dirname json f) dirname = true.
Proof.
  unfold can_save, saved. fold dirname.
  intros [[Hdir _]%andb_true_iff _]%andb_true_iff.
  destruct (is_dir f dirname || is_file f dirname) eqn:Hfound; [done|].
  unfold is_dir. simpl. apply orb_true_iff. right. apply bool_decide_eq_true.
  apply elem_of_union_r, elem_of_list_to_set, ancestors_self.
  unfold path_join. by destruct __dirname.
Qed.

Lemma saved_file_not_dir json f :
  can_save __dirname f = true →
  is_dir (saved __dirname json f) (stylePath __dirname) = false.
Proof.
  unfold can_save, saved. fold dirname.
  change (path_join dirname ["style.json"]) with (stylePath __dirname).
  intros [[_ Hnodir%negb_true_iff]%andb_true_iff _]%andb_true_iff.
  destruct (is_dir f dirname || is_file f dirname) eqn:Hfound; [done|].
  unfold is_dir in *. simpl. apply orb_false_iff in Hnodir as [Hnil Hin].
  apply orb_false_iff. split; [done|]. apply bool_decide_eq_false.
  apply bool_decide_eq_false in Hin.
  intros [?|?%elem_of_list_to_set]%elem_of_union; [done|].
  by eapply stylePath_not_ancestor.
Qed.

Lemma can_save_saved json f :
  can_save __dirname f = true → can_save __dirname (saved __dirname json f) = true.
Proof.
  intros Hsave.
  pose proof (saved_is_dir json f Hsave) as Hdir.
  pose proof (saved_file_not_dir json f Hsave) as Hfile.
  unfold can_save in *. fold dirname in *.
  change (path_join dirname ["style.json"]) with (stylePath __dirname) in *.
  rewrite Hdir, Hfile. simpl.
  by apply andb_true_iff in Hsave as [_ ->].
Qed.

Lemma saved_saved json f :
  can_save __dirname f = true →
  saved __dirname json (saved __dirname json f) = saved __dirname json f.
Proof.
  intros Hsave. pose proof (saved_is_dir json f Hsave) as Hdir.
  unfold saved at 1. fold dirname. rewrite Hdir. simpl.
  unfold saved. simpl. by rewrite insert_insert_eq.
Qed.

Lemma saveThemeStyle_stringify_fails w object e :
  dir_ready __dirname (fs w) = true →
  JSON_stringify (heap w) object 4 = Throw e →
  saveThemeStyle __dirname JSON_stringify object w
  = (Throw e, World (heap w)
                (mkFS (dirs_ensured __dirname (fs w)) (files (fs w)) (denied (fs w)))).
Proof.
  destruct w as [h f]. unfold dir_ready, dirs_ensured, saveThemeStyle. simpl.
  fold dirname. intros Hready Hjson.
  unfold bind at 1. unfold existsSync at 1. simpl.
  destruct (is_dir f dirname || is_file f dirname) eqn:Hfound; simpl in *.
  - unfold bind at 1. unfold ret at 1.
    unfold bind at 1. unfold stringify at 1. simpl. rewrite Hjson. by destruct f.
  - apply andb_true_iff in Hready as [Hfiles%negb_true_iff Hdenied%negb_true_iff].
    unfold bind at 1. unfold mkdirSync at 1. simpl. rewrite Hfiles, Hdenied.
    unfold bind at 1. unfold stringify at 1. simpl. by rewrite Hjson.
Qed.

Lemma themeStyle_skips w pre :
  Forall (ContentEntry (heap w)) pre →
  Forall (λ y, has_tag "ThemeStyle" (heap w) y = false) pre →
  ∀ y, y ∈ pre →
    ∃ r, themeStyleCallback __dirname JSON_stringify y w = (Ok r, w) ∧ truthy r = false.
Proof.
  intros Hpre Hother y Hy. exists VUndefined. split; [|done].
  apply themeStyleCallback_other.
  - by eapply Forall_forall in Hpre.
  - by eapply Forall_forall in Hother.
Qed.

End TransformSteps.

(** X8. Whatever [transform] is called with and whatever the outcome, it
    leaves the heap alone, changes no file other than [style.json], removes
    no directory (it adds at most [content/data] and the directories above
    it) and does not change what the process is allowed to write; when it
    returns, it returns the [data] of its argument. *)
Theorem transform_frame_any __dirname JSON_stringify arg w r w' :
  transform __dirname JSON_stringify arg w = (r, w') →
  heap w' = heap w
  ∧ denied (fs w') = denied (fs w)
  ∧ (dirs (fs w') = dirs (fs w) ∨ dirs (fs w') = dirs_ensured __dirname (fs w))
  ∧ (∀ p, p ≠ stylePath __dirname → files (fs w') !! p = files (fs w) !! p)
  ∧ (∀ v, r = Ok v → get arg "data" w = (Ok v, w)).
Proof.
  intros [(-> & Hr)|(x & rs & Hsave & Hr)]%transform_cases.
  - repeat split; auto. intros v ->.
    destruct Hr as [(e & ?)|(data & Hget & [= ->])]; done.
  - destruct (saveThemeStyle_outcome _ _ _ _ _ _ Hsave)
      as (Hheap & Hdenied & Hdirs & Hfiles & _).
    repeat split; auto. intros v ->.
    destruct Hr as [(_ & data & Hget & [= ->])|(e & _ & ?)]; done.
Qed.

Lemma themeWorld_data : data_objects themeHeap (VRef 0) (VRef 1) 2 [VRef 4; VRef 6; VRef 8].
Proof.
  exists {[ "data" := VRef 1 ]}, {[ "objects" := VRef 2 ]}. repeat split; by vm_compute.
Qed.

Lemma themeWorld_run :
  transform siteDir compactJson (VRef 0) themeWorld
  = (Ok (VRef 1),
     World themeHeap
       (saved siteDir "{__metadata:{modelName:ThemeStyle},primaryColor:blue}" emptyFS)).
Proof.
  rewrite (transform_first siteDir compactJson themeWorld (VRef 0) (VRef 1) 2
             [VRef 4] (VRef 6) [VRef 8]).
  - by rewrite (saveThemeStyle_ok siteDir compactJson themeWorld (VRef 6)
                  "{__metadata:{modelName:ThemeStyle},primaryColor:blue}")
      by by vm_compute.
  - exact themeWorld_data.
  - by_evaluation.
  - by_evaluation.
  - by_evaluation.
  - by vm_compute.
Qed.

Lemma transform_frame_any_witness :
  (dirs (saved siteDir "{__metadata:{modelName:ThemeStyle},primaryColor:blue}" emptyFS)
   = dirs emptyFS
   ∨ dirs (saved siteDir "{__metadata:{modelName:ThemeStyle},primaryColor:blue}" emptyFS)
     = dirs_ensured siteDir emptyFS)
  ∧ get (VRef 0) "data" themeWorld = (Ok (VRef 1), themeWorld).
Proof.
  destruct (transform_frame_any siteDir compactJson (VRef 0) themeWorld (Ok (VRef 1))
              (World themeHeap
                 (saved siteDir "{__metadata:{modelName:ThemeStyle},primaryColor:blue}"
                    emptyFS)))
    as (_ & _ & Hdirs & _ & Hdata).
  - exact themeWorld_run.
  - split; [exact Hdirs|by apply Hdata].
Defined.

(** X9. [transform] writes the file last: when it throws, for whatever
    reason, no file has been created or changed and the heap is as it
    was. *)
Theorem transform_failure_writes_nothing __dirname JSON_stringify arg w e w' :
  transform __dirname JSON_stringify arg w = (Throw e, w') →
  files (fs w') = files (fs w) ∧ heap w' = heap w.
Proof.
  intros [(-> & _)|(x & rs & Hsave & Hr)]%transform_cases; [done|].
  destruct (saveThemeStyle_outcome _ _ _ _ _ _ Hsave) as (Hheap & _ & _ & _ & Hfiles).
  split; [|done]. destruct Hr as [(_ & data & _ & ?)|(e' & -> & _)]; [done|].
  by eapply Hfiles.
Qed.

Lemma cyclicThemeWorld_data : data_objects cyclicThemeHeap (VRef 0) (VRef 1) 2 [VRef 4].
Proof.
  exists {[ "data" := VRef 1 ]}, {[ "objects" := VRef 2 ]}. repeat split; by vm_compute.
Qed.

Lemma cyclicThemeWorld_run :
  transform siteDir compactJson (VRef 0) cyclicThemeWorld
  = (Throw (JsonError "Converting circular structure to JSON"),
     World cyclicThemeHeap (mkFS (dirs_ensured siteDir emptyFS) ∅ ∅)).
Proof.
  rewrite (transform_first siteDir compactJson cyclicThemeWorld (VRef 0) (VRef 1) 2
             [] (VRef 4) []).
  - by rewrite (saveThemeStyle_stringify_fails siteDir compactJson cyclicThemeWorld (VRef 4)
                  (JsonError "Converting circular structure to JSON"))
      by by vm_compute.
  - exact cyclicThemeWorld_data.
  - constructor.
  - constructor.
  - by_evaluation.
  - by vm_compute.
Qed.

Lemma transform_failure_writes_nothing_witness :
  files (mkFS (dirs_ensured siteDir emptyFS) ∅ ∅) = files emptyFS
  ∧ cyclicThemeHeap = cyclicThemeHeap.
Proof.
  apply (transform_failure_writes_nothing siteDir compactJson (VRef 0) cyclicThemeWorld
           (JsonError "Converting circular structure to JSON")
           (World cyclicThemeHeap (mkFS (dirs_ensured siteDir emptyFS) ∅ ∅))).
  exact cyclicThemeWorld_run.
Defined.

(** X10. An entry without a metadata record that comes before any
    [ThemeStyle] entry makes [transform] throw a [TypeError] before it
    reaches the file system: no directory is created, no file is written,
    and [data] is not returned. *)
Theorem transform_malformed_before_ThemeStyle __dirname JSON_stringify
    w arg data lo pre x post :
  data_objects (heap w) arg data lo (pre ++ x :: post) →
  Forall (ContentEntry (heap w)) pre →
  Forall (λ y, has_tag "ThemeStyle" (heap w) y = false) pre →
  lacks_metadata (heap w) x →
  transform __dirname JSON_stringify arg w = (Throw CannotRead, w).
Proof.
  intros Hdata Hpre Hother Hx. rewrite (transform_find _ _ _ _ _ _ _ Hdata).
  apply bind_throw. apply find_loop_throw; [by apply themeStyle_skips|].
  unfold themeStyleCallback. apply bind_throw. by apply modelName_lacks.
Qed.

Lemma transform_malformed_before_ThemeStyle_witness :
  transform siteDir compactJson (VRef 0) brokenThemeWorld
  = (Throw CannotRead, brokenThemeWorld).
Proof.
  apply (transform_malformed_before_ThemeStyle siteDir compactJson brokenThemeWorld
           (VRef 0) (VRef 1) 2 [] (VRef 3) [VRef 5]).
  - exists {[ "data" := VRef 1 ]}, {[ "objects" := VRef 2 ]}. repeat split; by vm_compute.
  - constructor.
  - constructor.
  - exists {[ "slug" := VStr "/broken" ]}. split; [reflexivity|]. left. by vm_compute.
Defined.

(** X11. The directory is made before the entry is serialized: when
    [JSON.stringify] throws on the first [ThemeStyle] entry, the error
    reaches the caller, [content/data] exists from then on, and no file has
    been written. *)
Theorem transform_stringify_failure __dirname JSON_stringify
    w arg data lo pre o post e :
  data_objects (heap w) arg data lo (pre ++ o :: post) →
  Forall (ContentEntry (heap w)) pre →
  Forall (λ y, has_tag "ThemeStyle" (heap w) y = false) pre →
  ContentEntry (heap w) o →
  has_tag "ThemeStyle" (heap w) o = true →
  dir_ready __dirname (fs w) = true →
  JSON_stringify (heap w) o 4 = Throw e →
  transform __dirname JSON_stringify arg w
  = (Throw e, World (heap w)
                (mkFS (dirs_ensured __dirname (fs w)) (files (fs w)) (denied (fs w)))).
Proof.
  intros Hdata Hpre Hother Ho Htheme Hready Hjson.
  rewrite (transform_first _ _ _ _ _ _ _ _ _ Hdata Hpre Hother Ho Htheme).
  by rewrite (saveThemeStyle_stringify_fails _ _ _ _ _ Hready Hjson).
Qed.

Lemma transform_stringify_failure_witness :
  transform siteDir compactJson (VRef 0) cyclicThemeWorld
  = (Throw (JsonError "Converting circular structure to JSON"),
     World cyclicThemeHeap (mkFS (dirs_ensured siteDir emptyFS) ∅ ∅))
  ∧ siteDir ++ ["content"; "data"] ∈ dirs_ensured siteDir emptyFS.
Proof.
  split; [|by_evaluation].
  apply (transform_stringify_failure siteDir compactJson cyclicThemeWorld
           (VRef 0) (VRef 1) 2 [] (VRef 4) []).
  - exact cyclicThemeWorld_data.
  - constructor.
  - constructor.
  - by_evaluation.
  - by vm_compute.
  - by vm_compute.
  - by vm_compute.
Defined.

(** X12. Saving is idempotent: when [transform] has saved the first
    [ThemeStyle] entry, running it again on the same argument returns the
    same [data] and leaves the file system exactly as the first run left
    it. *)
Theorem transform_idempotent __dirname JSON_stringify w arg data lo pre o post json :
  data_objects (heap w) arg data lo (pre ++ o :: post) →
  Forall (ContentEntry (heap w)) pre →
  Forall (λ y, has_tag "ThemeStyle" (heap w) y = false) pre →
  ContentEntry (heap w) o →
  has_tag "ThemeStyle" (heap w) o = true →
  JSON_stringify (heap w) o 4 = Ok json →
  can_save __dirname (fs w) = true →
  ∃ w1,
    transform __dirname JSON_stringify arg w = (Ok data, w1)
    ∧ transform __dirname JSON_stringify arg w1 = (Ok data, w1)
    ∧ files (fs w1) !! stylePath __dirname = Some json.
Proof.
  intros Hdata Hpre Hother Ho Htheme Hjson Hsave.
  exists (World (heap w) (saved __dirname json (fs w))). split; [|split].
  - rewrite (transform_first _ _ _ _ _ _ _ _ _ Hdata Hpre Hother Ho Htheme).
    by rewrite (saveThemeStyle_ok _ _ _ _ _ Hsave Hjson).
  - rewrite (transform_first __dirname JSON_stringify
               (World (heap w) (saved __dirname json (fs w))) arg data lo pre o post
               Hdata Hpre Hother Ho Htheme).
    rewrite (saveThemeStyle_ok __dirname JSON_stringify
               (World (heap w) (saved __dirname json (fs w))) o json
               (can_save_saved _ _ _ Hsave) Hjson).
    simpl. by rewrite saved_saved.
  - simpl. apply lookup_insert_eq.
Qed.

Lemma transform_idempotent_witness :
  ∃ w1,
    transform siteDir compactJson (VRef 0) themeWorld = (Ok (VRef 1), w1)
    ∧ transform siteDir compactJson (VRef 0) w1 = (Ok (VRef 1), w1)
    ∧ files (fs w1) !! stylePath siteDir
      = Some "{__metadata:{modelName:ThemeStyle},primaryColor:blue}".
Proof.
  apply (transform_idempotent siteDir compactJson themeWorld (VRef 0) (VRef 1) 2
           [VRef 4] (VRef 6) [VRef 8]).
  - exact themeWorld_data.
  - by_evaluation.
  - by_evaluation.
  - by_evaluation.
  - by vm_compute.
  - by vm_compute.
  - by vm_compute.
Defined.

(** X13. [transform] reads [data.objects] before anything else: when its
    argument has no [data], or [data] has no [objects], it throws a
    [TypeError] and leaves the world as it was. *)
Theorem transform_missing_objects __dirname JSON_stringify w arg a :
  record_of (heap w) arg = Some a →
  (a !! "data" = None → transform __dirname JSON_stringify arg w = (Throw CannotRead, w))
  ∧ (∀ data d,
       a !! "data" = Some data →
       record_of (heap w) data = Some d →
       d !! "objects" = None →
       transform __dirname JSON_stringify arg w = (Throw CannotRead, w)).
Proof.
  intros Ha. split.
  - intros Hnone. unfold transform.
    rewrite (bind_ok _ _ _ _ _ (get_record w arg a _ Ha)), Hnone. done.
  - intros data d Hdata Hd Hnone. unfold transform.
    rewrite (bind_ok _ _ _ _ _ (get_record w arg a _ Ha)), Hdata. simpl.
    rewrite (bind_ok _ _ _ _ _ (get_record w data d _ Hd)), Hnone. done.
Qed.

Lemma transform_missing_objects_witness :
  transform siteDir compactJson (VRef 0) noObjectsWorld = (Throw CannotRead, noObjectsWorld).
Proof.
  refine (proj2 (transform_missing_objects siteDir compactJson noObjectsWorld (VRef 0)
                   {[ "data" := VRef 1 ]} _)
            (VRef 1) {[ "pages" := VNull ]} _ _ _); by vm_compute.
Defined.

(** ** The plugin options *)

(** X14. The Contentful environment is never empty: it is the value of
    [CONTENTFUL_ENVIRONMENT] when that variable is set to a non-empty
    string, and [master] both when the variable is unset and when it is set
    to the empty string. *)
Theorem contentful_environment_default (env : gmap string string) :
  ∃ s, environment (contentfulOptions env) = VStr s
       ∧ s ≠ ""
       ∧ (∀ v, env !! "CONTENTFUL_ENVIRONMENT" = Some v → v ≠ "" → s = v)
       ∧ (env !! "CONTENTFUL_ENVIRONMENT" = None → s = "master")
       ∧ (env !! "CONTENTFUL_ENVIRONMENT" = Some "" → s = "master").
Proof.
  unfold contentfulOptions, or_else, getenv. simpl.
  destruct (env !! "CONTENTFUL_ENVIRONMENT") as [v|] eqn:Hv; simpl.
  - destruct (String.eqb_spec v "") as [->|Hne]; simpl.
    + exists "master". repeat split; try done. by intros v [= <-].
    + exists v. repeat split; try done.
      * by intros v' [= <-].
      * intros [= ->]. done.
  - exists "master". by repeat split.
Qed.

(** X15. The development switches move together: [preview], [watch] and
    [liveUpdate] are all on, and the host is the Contentful preview host,
    exactly when [NODE_ENV] is the string [development]; in every other
    environment they are all off and no host is set. *)
Theorem development_switches_agree (env : gmap string string) :
  (env !! "NODE_ENV" = Some "development" →
     preview (contentfulOptions env) = VBool true
     ∧ watch (contentfulOptions env) = VBool true
     ∧ liveUpdate (targetNextFlags env) = VBool true
     ∧ host (contentfulOptions env) = VStr "preview.contentful.com")
  ∧ (env !! "NODE_ENV" ≠ Some "development" →
     preview (contentfulOptions env) = VBool false
     ∧ watch (contentfulOptions env) = VBool false
     ∧ liveUpdate (targetNextFlags env) = VBool false
     ∧ host (contentfulOptions env) = VUndefined).
Proof.
  unfold contentfulOptions, targetNextFlags, isDev, getenv, strict_eq. simpl. split.
  - intros ->. by rewrite bool_decide_eq_true_2.
  - intros Hne. rewrite bool_decide_eq_false_2; [done|].
    destruct (env !! "NODE_ENV") as [v|]; [|done]. intros [= ->]. done.
Qed.

Lemma development_switches_agree_witness :
  host (contentfulOptions {[ "NODE_ENV" := "development" ]}) = VStr "preview.contentful.com"
  ∧ host (contentfulOptions {[ "NODE_ENV" := "Development" ]}) = VUndefined.
Proof.
  split.
  - apply (development_switches_agree {[ "NODE_ENV" := "development" ]}). by vm_compute.
  - apply (development_switches_agree {[ "NODE_ENV" := "Development" ]}). by vm_compute.
Defined.

(** ** The icon registry *)




Lemma contentful_environment_default_witness :
  environment (contentfulOptions {[ "CONTENTFUL_ENVIRONMENT" := "" ]}) = VStr "master"
  ∧ environment (contentfulOptions {[ "CONTENTFUL_ENVIRONMENT" := "staging" ]})
    = VStr "staging".
Proof.
  split.
  - destruct (contentful_environment_default {[ "CONTENTFUL_ENVIRONMENT" := "" ]})
      as (s & -> & _ & _ & _ & Hempty).
    by rewrite Hempty by by vm_compute.
  - destruct (contentful_environment_default {[ "CONTENTFUL_ENVIRONMENT" := "staging" ]})
      as (s & -> & _ & Hset & _).
    by rewrite (Hset "staging") by by vm_compute.
Defined.
